(** * p2p-bitcoin-wallet: the peer synchronisation core, embedded in Rocq

    The development follows the JavaScript sources:
    - the Hyperswarm peer script [src/scripts/p2p/run-bitcoin-wallet-distributed.js]
      (module-level wallet state, [retryWithBackoff], [broadcastState],
      [handlePeerConnection] and the main workflow that propagates a
      transaction to [swarm.connections]);
    - [src/wallet/wallet.js] ([validateWalletName], [validateAmount],
      [sendBitcoin]).

    JavaScript values are embedded as an inductive type, numbers as IEEE 754
    binary64 values ([spec_float]), strings as sequences of UTF-16 code
    units.  Exceptions and the mutable module state are threaded through a
    small state-and-exception monad in which the state written before a
    [throw] survives it, as it does in the source. *)

From Stdlib Require Import List ZArith NArith Bool String Ascii Lia.
From Stdlib Require Import Floats.SpecFloat.
Import ListNotations.

Set Implicit Arguments.

(* ===================================================================== *)
(** * JavaScript values                                                    *)
(* ===================================================================== *)

Module JS.

(** A JavaScript string: its UTF-16 code units. *)
Definition jsstring := list N.

(** The code units of an ASCII literal of the source text. *)
Definition lit (s : string) : jsstring :=
  map N_of_ascii (list_ascii_of_string s).

Fixpoint str_eqb (a b : jsstring) : bool :=
  match a, b with
  | [], [] => true
  | x :: a', y :: b' => N.eqb x y && str_eqb a' b'
  | _, _ => false
  end.

(** A JavaScript number: an IEEE 754 double (53 bits of precision,
    exponent bound 1024), in the standard library's executable
    specification of floating-point values. *)
Definition number := spec_float.

Definition zero : number := S754_zero false.

Definition is_NaN (x : number) : bool :=
  match x with S754_nan => true | _ => false end.

(** [x > y], [x <= y] on numbers: false as soon as an operand is NaN. *)
Definition num_gt (x y : number) : bool := SFltb y x.
Definition num_le (x y : number) : bool := SFleb x y.

(** The values [JSON.parse] produces, and [undefined], which reading an
    absent property produces.  An object is the association list of its
    own properties; the first binding of a name is the property. *)
#[local] Unset Elimination Schemes.
Inductive value :=
| VUndefined
| VNull
| VBool (b : bool)
| VNum (n : number)
| VStr (s : jsstring)
| VArr (elems : list value)
| VObj (props : list (jsstring * value)).
#[local] Set Elimination Schemes.

Inductive exn :=
| SyntaxError
| TypeError
| RangeError
| Error (msg : string)
| WriteError (conn : nat).

Fixpoint own (props : list (jsstring * value)) (k : jsstring) : option value :=
  match props with
  | [] => None
  | (k', v) :: rest => if str_eqb k' k then Some v else own rest k
  end.

Definition has_own (props : list (jsstring * value)) (k : jsstring) : bool :=
  match own props k with Some _ => true | None => false end.

(** [v.k] for the property names the program reads ([type], [data],
    [balance], [transactions], [sender], [recipient], [amount], [txId]):
    none of them is defined on a prototype, an index or [length].
    Reading a property of [undefined] or [null] throws a TypeError;
    on any other value an absent property reads as [undefined]. *)
Definition Get (v : value) (k : jsstring) : exn + value :=
  match v with
  | VUndefined | VNull => inl TypeError
  | VObj props =>
      inr (match own props k with Some x => x | None => VUndefined end)
  | _ => inr VUndefined
  end.

(** [v === 'literal']. *)
Definition strict_eq_lit (v : value) (s : string) : bool :=
  match v with
  | VStr s' => str_eqb s' (lit s)
  | _ => false
  end.

(** Whether converting [v] to a string inside a template literal throws.
    Primitives always convert.  A plain object converts through
    [Object.prototype.toString] unless it has an own [toString] property:
    an own property parsed from JSON is never callable, and the fallback
    [valueOf] does not yield a primitive, hence a TypeError.  An array
    converts through [join], which converts each element in turn
    ([null] and [undefined] elements become the empty string). *)
Fixpoint ToString_throws (v : value) : bool :=
  match v with
  | VArr elems => existsb ToString_throws elems
  | VObj props => has_own props (lit "toString")
  | _ => false
  end.

Definition is_high_surrogate (c : N) : bool :=
  (55296 <=? c)%N && (c <=? 56319)%N.
Definition is_low_surrogate (c : N) : bool :=
  (56320 <=? c)%N && (c <=? 57343)%N.

(** The string iterator: one string per code point, a surrogate pair
    staying together. *)
Fixpoint code_points (s : jsstring) : list jsstring :=
  match s with
  | [] => []
  | c :: rest =>
      match rest with
      | d :: rest' =>
          if is_high_surrogate c && is_low_surrogate d
          then [c; d] :: code_points rest'
          else [c] :: code_points rest
      | [] => [[c]]
      end
  end.

(** The elements a spread [...v] yields.  Arrays and strings are
    iterable; [undefined], [null], numbers, booleans and plain objects
    are not, and spreading them throws a TypeError. *)
Definition spread (v : value) : exn + list value :=
  match v with
  | VArr elems => inr elems
  | VStr s => inr (map VStr (code_points s))
  | _ => inl TypeError
  end.

(** White space and line terminators, as [String.prototype.trim]
    removes them. *)
Definition is_white (c : N) : bool :=
  existsb (N.eqb c)
    [9; 10; 11; 12; 13; 32; 160; 5760; 8232; 8233; 8239; 8287; 12288; 65279]%N
  || ((8192 <=? c)%N && (c <=? 8202)%N).

(** [s.trim() === '']. *)
Definition trim_is_empty (s : jsstring) : bool := forallb is_white s.

(** The built-in functions of the runtime the program calls but does not
    define.  [JSON_parse] returns [None] where [JSON.parse] throws a
    SyntaxError.  [relational_gt a b] is [a > b] when the operands are
    not both numbers (it goes through string and object coercions, and
    is [None] where a coercion throws).  [max_spread_arguments] is the
    number of arguments the engine can pass to one call: a spread call
    [f(...xs)] passes every element of [xs] as an argument of its own, and
    with more elements than that the call throws a RangeError before [f]
    runs. *)
Class Runtime := {
  Buffer_toString : list N -> jsstring;
  JSON_parse : jsstring -> option value;
  JSON_stringify : value -> jsstring;
  relational_gt : value -> value -> option bool;
  max_spread_arguments : N
}.

(** Whether a call can take the elements of [items] as its arguments. *)
Definition fits_one_call `{Runtime} {A : Type} (items : list A) : bool :=
  (N.of_nat (List.length items) <=? max_spread_arguments)%N.

(** [a > b]. *)
Definition gt `{Runtime} (a b : value) : exn + bool :=
  match a, b with
  | VNum x, VNum y => inr (num_gt x y)
  | _, _ =>
      match relational_gt a b with
      | Some r => inr r
      | None => inl TypeError
      end
  end.

End JS.

(* ===================================================================== *)
(** * State and exceptions                                                 *)
(* ===================================================================== *)

(** A computation over a mutable state [S] that returns a value or throws.
    The state reached when the exception is thrown is kept: an assignment
    made before a [throw] is not rolled back. *)
Module Eff.
Import JS.

Definition M (S A : Type) : Type := S -> S * (exn + A).

Definition ret {S A} (a : A) : M S A := fun s => (s, inr a).

Definition throw {S A} (e : exn) : M S A := fun s => (s, inl e).

Definition bind {S A B} (m : M S A) (f : A -> M S B) : M S B :=
  fun s =>
    match m s with
    | (s', inr a) => f a s'
    | (s', inl e) => (s', inl e)
    end.

Definition lift {S A} (r : exn + A) : M S A := fun s => (s, r).

Definition read {S A} (f : S -> A) : M S A := fun s => (s, inr (f s)).

Definition modify {S} (f : S -> S) : M S unit := fun s => (f s, inr tt).

(** [try { body } catch (error) { handler error }]. *)
Definition try_catch {S A} (body : M S A) (handler : exn -> M S A) : M S A :=
  fun s =>
    match body s with
    | (s', inr a) => (s', inr a)
    | (s', inl e) => handler e s'
    end.

Declare Scope eff_scope.
Delimit Scope eff_scope with eff.
Notation "x <- m ;; k" := (bind m (fun x => k))
  (at level 61, m at next level, right associativity) : eff_scope.
Notation "m ;; k" := (bind m (fun _ => k))
  (at level 61, right associativity) : eff_scope.

End Eff.

(* ===================================================================== *)
(** * The peer script                                                      *)
(* ===================================================================== *)

Module Peer.
Import JS Eff.
Local Open Scope eff_scope.

(** One line of console output.  The payload is what the call prints. *)
Inductive log_entry :=
| Log_new_peer
| Log_received_message (message : value)
| Log_received_transaction (txId sender recipient amount : value)
| Log_state_request
| Log_received_state (data : value)
| Log_updating_local_state
| Warn_unknown_type (type : value)
| Error_processing (error : exn)
| Warn_too_many_malformed
| Log_broadcasting (transaction : value)
| Error_main_flow (error : exn).

(** A peer connection as the script uses it.  [write] appends to what was
    sent to the peer unless the write throws ([write_throws], decided by
    the transport); [destroy] marks the stream destroyed. *)
Record Connection := {
  conn_id : nat;
  write_throws : bool;
  destroyed : bool;
  written : list jsstring
}.

(** The module-level wallet state ([currentBalance], [transactionHistory]),
    the console, and what the closure of one [handlePeerConnection] call
    holds: its connection and its [malformedMessagesCount]. *)
Record State := {
  currentBalance : value;
  transactionHistory : list value;
  connection : Connection;
  malformedMessagesCount : nat;
  console : list log_entry
}.

Definition console_log (e : log_entry) : M State unit :=
  modify (fun s =>
    {| currentBalance := currentBalance s;
       transactionHistory := transactionHistory s;
       connection := connection s;
       malformedMessagesCount := malformedMessagesCount s;
       console := console s ++ [e] |}).

Definition set_currentBalance (b : value) : M State unit :=
  modify (fun s =>
    {| currentBalance := b;
       transactionHistory := transactionHistory s;
       connection := connection s;
       malformedMessagesCount := malformedMessagesCount s;
       console := console s |}).

(** [transactionHistory.push(items...)], the arguments written out. *)
Definition transactionHistory_push (items : list value) : M State unit :=
  modify (fun s =>
    {| currentBalance := currentBalance s;
       transactionHistory := transactionHistory s ++ items;
       connection := connection s;
       malformedMessagesCount := malformedMessagesCount s;
       console := console s |}).

Definition set_connection (c : Connection) (s : State) : State :=
  {| currentBalance := currentBalance s;
     transactionHistory := transactionHistory s;
     connection := c;
     malformedMessagesCount := malformedMessagesCount s;
     console := console s |}.

Definition increment_malformed : M State unit :=
  modify (fun s =>
    {| currentBalance := currentBalance s;
       transactionHistory := transactionHistory s;
       connection := connection s;
       malformedMessagesCount := S (malformedMessagesCount s);
       console := console s |}).

(** [conn] after a successful write of [payload]. *)
Definition delivered (payload : jsstring) (conn : Connection) : Connection :=
  {| conn_id := conn_id conn;
     write_throws := write_throws conn;
     destroyed := destroyed conn;
     written := written conn ++ [payload] |}.

(** [conn.write(payload)]. *)
Definition write (c : Connection) (payload : jsstring) : exn + Connection :=
  if write_throws c then inl (WriteError (conn_id c))
  else inr (delivered payload c).

(** [conn.destroy()]. *)
Definition destroy (c : Connection) : Connection :=
  {| conn_id := conn_id c;
     write_throws := write_throws c;
     destroyed := true;
     written := written c |}.

Definition connection_write (payload : jsstring) : M State unit :=
  fun s =>
    match write (connection s) payload with
    | inr c' => (set_connection c' s, inr tt)
    | inl e => (s, inl e)
    end.

Definition connection_destroy : M State unit :=
  modify (fun s => set_connection (destroy (connection s)) s).

Section Script.
Context {rt : Runtime}.

(** [WALLET_NAME], read from the environment when the script starts. *)
Variable WALLET_NAME : jsstring.

(** [transactionHistory.push(...items)]: the call throws when [items] are
    more than one call can take, and nothing is appended then. *)
Definition transactionHistory_push_spread (items : list value)
  : M State unit :=
  if fits_one_call items then transactionHistory_push items
  else throw RangeError.

(** The object [broadcastState] serialises. *)
Definition walletState (s : State) : value :=
  VObj [ (lit "type", VStr (lit "state"));
         (lit "data",
          VObj [ (lit "walletName", VStr WALLET_NAME);
                 (lit "balance", currentBalance s);
                 (lit "transactions", VArr (transactionHistory s)) ]) ].

Definition broadcastState : M State unit :=
  s <- read (fun s => s) ;;
  connection_write (JSON_stringify (walletState s)).

(** The template literal of the [transaction] branch converts [txId],
    [sender], [recipient] and [amount] to strings, in that order. *)
Definition template (vs : list value) : M State unit :=
  if existsb ToString_throws vs then throw TypeError else ret tt.

(** The body of the [try] block of the ['data'] listener. *)
Definition dispatch (data : list N) : M State unit :=
  message <- lift (match JSON_parse (Buffer_toString data) with
                   | Some v => inr v
                   | None => inl SyntaxError
                   end) ;;
  console_log (Log_received_message message) ;;
  type <- lift (Get message (lit "type")) ;;
  if strict_eq_lit type "transaction" then
    d <- lift (Get message (lit "data")) ;;
    (* destructuring: the source object must not be undefined or null *)
    sender <- lift (Get d (lit "sender")) ;;
    recipient <- lift (Get d (lit "recipient")) ;;
    amount <- lift (Get d (lit "amount")) ;;
    txId <- lift (Get d (lit "txId")) ;;
    template [txId; sender; recipient; amount] ;;
    console_log (Log_received_transaction txId sender recipient amount) ;;
    transactionHistory_push [d]
  else if strict_eq_lit type "state-request" then
    console_log Log_state_request ;;
    broadcastState
  else if strict_eq_lit type "state" then
    d <- lift (Get message (lit "data")) ;;
    console_log (Log_received_state d) ;;
    balance <- lift (Get d (lit "balance")) ;;
    current <- read currentBalance ;;
    greater <- lift (gt balance current) ;;
    if (greater : bool) then
      console_log Log_updating_local_state ;;
      set_currentBalance balance ;;
      transactions <- lift (Get d (lit "transactions")) ;;
      items <- lift (spread transactions) ;;
      transactionHistory_push_spread items
    else ret tt
  else
    console_log (Warn_unknown_type type).

(** The [catch] block of the listener. *)
Definition on_error (error : exn) : M State unit :=
  increment_malformed ;;
  console_log (Error_processing error) ;;
  n <- read malformedMessagesCount ;;
  if 3 <? n then
    console_log Warn_too_many_malformed ;;
    connection_destroy
  else ret tt.

(** The ['data'] listener [handlePeerConnection] installs. *)
Definition on_data (data : list N) (s : State) : State :=
  fst (try_catch (dispatch data) on_error s).

(** Whether the listener's [try] block threw on this chunk. *)
Definition dispatch_throws (data : list N) (s : State) : bool :=
  match snd (dispatch data s) with inl _ => true | inr _ => false end.

(** [handlePeerConnection(connection)] up to the installation of the
    listeners: the closure's counter starts at zero and the current state
    is pushed to the peer.  This push is outside any [try]: an exception
    of the write leaves the function. *)
Definition handlePeerConnection (balance : value) (history : list value)
    (out : list log_entry) (conn : Connection) : State * (exn + unit) :=
  (console_log Log_new_peer ;; broadcastState)
    {| currentBalance := balance;
       transactionHistory := history;
       connection := conn;
       malformedMessagesCount := 0;
       console := out |}.

(** The transport's side of a session: chunks reach the listener in the
    order received, and a destroyed stream emits no further ['data']
    event. *)
Fixpoint deliver (chunks : list (list N)) (s : State) : State :=
  match chunks with
  | [] => s
  | data :: rest =>
      if destroyed (connection s) then s
      else deliver rest (on_data data s)
  end.

(** [swarm.connections.forEach((conn) => conn.write(JSON.stringify(transaction)))]:
    the callback runs on the connections in order; an exception it throws
    leaves [forEach], so the connections after it are not visited. *)
Fixpoint broadcastTransaction (transaction : value) (conns : list Connection)
  : list Connection * option exn :=
  match conns with
  | [] => ([], None)
  | conn :: rest =>
      match write conn (JSON_stringify transaction) with
      | inl e => (conn :: rest, Some e)
      | inr conn' =>
          let (rest', r) := broadcastTransaction transaction rest in
          (conn' :: rest', r)
      end
  end.

(** The propagation step of the main workflow, inside its [try]: the
    transaction is logged and written to the connections; an exception is
    caught by the workflow's only handler, which logs it. *)
Definition propagate (transaction : value)
    (conns : list Connection) (out : list log_entry)
  : list Connection * list log_entry :=
  match broadcastTransaction transaction conns with
  | (conns', None) => (conns', out ++ [Log_broadcasting transaction])
  | (conns', Some e) =>
      (conns', out ++ [Log_broadcasting transaction; Error_main_flow e])
  end.

End Script.
End Peer.

(* ===================================================================== *)
(** * Retry with exponential backoff                                       *)
(* ===================================================================== *)

Module Retry.
Import JS.

Definition MAX_RETRIES : Z := 5.

(** What a run of [retryWithBackoff] does, in order: calls of [fn],
    warnings, and timers awaited. *)
Inductive event :=
| Called
| Warned (attempt delay : Z)
| Slept (delay : Z).

Inductive outcome (V : Type) :=
| Resolved (v : V)
| ResolvedUndefined
| Rejected (e : exn).
Arguments ResolvedUndefined {V}.
Arguments Rejected {V} e.

Section Retry.
(** [fn] acts on a world [W] (the node it talks to) and resolves to a [V]
    or rejects. *)
Variables W V : Type.
Variable fn : W -> W * (exn + V).

(** The [for] loop, entered at its test.  [fuel] bounds the number of
    iterations; [None] is fuel exhausted.  [retries] is an integer count
    and [delay] an integer number of milliseconds: the source holds the
    delay in a double, and the two agree as long as the delay and its
    doublings are integers that a double holds exactly (statements about
    other delays than the default say so in a hypothesis). *)
Fixpoint loop (fuel : nat) (attempt retries delay : Z) (w : W)
    (tr : list event) : option (W * list event * outcome V) :=
  if (attempt <=? retries)%Z then
    match fuel with
    | O => None
    | S fuel' =>
        match fn w with
        | (w', inr v) => Some (w', tr ++ [Called], Resolved v)
        | (w', inl error) =>
            if (attempt =? retries)%Z
            then Some (w', tr ++ [Called], Rejected error)
            else loop fuel' (attempt + 1)%Z retries (delay * 2)%Z w'
                   (tr ++ [Called; Warned attempt delay; Slept delay])
        end
    end
  else Some (w, tr, ResolvedUndefined).

Definition retryWithBackoff (retries delay : Z) (w : W)
  : option (W * list event * outcome V) :=
  loop (Z.to_nat retries) 1 retries delay w [].

(** The call with both parameters defaulted. *)
Definition retryWithBackoff_default (w : W) :=
  retryWithBackoff MAX_RETRIES 500 w.

(** The world after [k] calls of [fn], and the result of call number
    [k + 1]. *)
Fixpoint after (k : nat) (w : W) : W :=
  match k with
  | O => w
  | S k' => fst (fn (after k' w))
  end.

Definition result_of_call (k : nat) (w : W) : exn + V :=
  snd (fn (after k w)).

End Retry.

Fixpoint calls (tr : list event) : nat :=
  match tr with
  | [] => 0
  | Called :: tr' => S (calls tr')
  | _ :: tr' => calls tr'
  end.

Fixpoint delays (tr : list event) : list Z :=
  match tr with
  | [] => []
  | Slept d :: tr' => d :: delays tr'
  | _ :: tr' => delays tr'
  end.

End Retry.

(* ===================================================================== *)
(** * wallet.js                                                            *)
(* ===================================================================== *)

Module Wallet.
Import JS Eff.
Local Open Scope eff_scope.
Local Open Scope string_scope.

Inductive log_entry :=
| Log_sending (amount walletName recipientAddress : value)
| Log_sent (txId : value)
| Error_sending (walletName : value) (error : exn).

(** The RPC client: its [wallet] field and the commands issued so far;
    and the console. *)
Record State := {
  client_wallet : value;
  issued : list (list value);
  console : list log_entry
}.

Definition validateWalletName (walletName : value) : exn + unit :=
  match walletName with
  | VStr s =>
      if trim_is_empty s
      then inl (Error "Invalid wallet name. It must be a non-empty string.")
      else inr tt
  | _ => inl (Error "Invalid wallet name. It must be a non-empty string.")
  end.

Definition validateAmount (amount : number) : exn + unit :=
  if is_NaN amount || num_le amount zero
  then inl (Error "Invalid amount. It must be a positive number.")
  else inr tt.

Definition console_log (e : log_entry) : M State unit :=
  modify (fun s =>
    {| client_wallet := client_wallet s;
       issued := issued s;
       console := console s ++ [e] |}).

Definition set_client_wallet (w : value) : M State unit :=
  modify (fun s =>
    {| client_wallet := w;
       issued := issued s;
       console := console s |}).

Definition template (vs : list value) : M State unit :=
  if existsb ToString_throws vs then throw TypeError else ret tt.

Section Client.
(** The node's answer to a command, given the client as it is when the
    command is issued. *)
Variable node : State -> list value -> exn + value.

(** [await client.command(...args)]. *)
Definition client_command (args : list value) : M State value :=
  fun s =>
    ({| client_wallet := client_wallet s;
        issued := issued s ++ [args];
        console := console s |},
     node s args).

Definition sendBitcoin (walletName recipientAddress : value) (amount : number)
  : M State value :=
  try_catch
    (lift (validateWalletName walletName) ;;
     lift (validateAmount amount) ;;
     template [VNum amount; walletName; recipientAddress] ;;
     console_log (Log_sending (VNum amount) walletName recipientAddress) ;;
     set_client_wallet walletName ;;
     txId <- client_command
               [VStr (lit "sendtoaddress"); recipientAddress; VNum amount] ;;
     template [txId] ;;
     console_log (Log_sent txId) ;;
     ret txId)
    (fun error =>
       template [walletName] ;;
       console_log (Error_sending walletName error) ;;
       throw error).

End Client.
End Wallet.

(* ===================================================================== *)
(** * Sample inputs                                                        *)
(* ===================================================================== *)

Module Samples.
Import JS Peer.
Local Open Scope string_scope.

(** A JSON text of the examples, written with single quotes standing for
    the double quotes of the wire text. *)
Definition json (s : string) : list N :=
  map (fun c => if N.eqb c 39 then 34%N else c) (lit s).

(** The doubles nearest to 0.5, 0.3 and 0.1. *)
Definition d0_5 : number := S754_finite false 4503599627370496 (-53).
Definition d0_3 : number := S754_finite false 5404319552844595 (-54).
Definition d0_1 : number := S754_finite false 7205759403792794 (-56).

Definition obj (props : list (string * value)) : value :=
  VObj (map (fun p => (lit (fst p), snd p)) props).
Definition str (s : string) : value := VStr (lit s).

Definition tx (id : string) : value := obj [("txId", str id)].

Definition record_c : value :=
  obj [("sender", str "alice"); ("recipient", str "bob");
       ("amount", VNum d0_1); ("txId", str "c")].

Definition text_garbage := json "not json".
Definition text_null := json "null".
Definition text_empty_object := json "{}".
Definition text_unknown := json "{'type':'foo'}".
Definition text_state_request := json "{'type':'state-request'}".
Definition text_transaction_c :=
  json "{'type':'transaction','data':{'sender':'alice','recipient':'bob','amount':0.1,'txId':'c'}}".
Definition text_state_a :=
  json "{'type':'state','data':{'walletName':'w','balance':0.5,'transactions':[{'txId':'a'}]}}".
Definition text_state_b :=
  json "{'type':'state','data':{'walletName':'w','balance':0.3,'transactions':[{'txId':'b'}]}}".
Definition text_state_string :=
  json "{'type':'state','data':{'walletName':'w','balance':0.5,'transactions':'ab'}}".
Definition text_state_no_transactions :=
  json "{'type':'state','data':{'walletName':'w','balance':0.5}}".

Definition state_msg (b : number) (transactions : list (string * value)) : value :=
  obj [("type", str "state");
       ("data", obj (([("walletName", str "w"); ("balance", VNum b)]
                      ++ transactions)%list))].

(** What [JSON.parse] returns on the texts above. *)
Definition parse_table : list (list N * value) :=
  [ (text_null, VNull);
    (text_empty_object, obj []);
    (text_unknown, obj [("type", str "foo")]);
    (text_state_request, obj [("type", str "state-request")]);
    (text_transaction_c, obj [("type", str "transaction"); ("data", record_c)]);
    (text_state_a, state_msg d0_5 [("transactions", VArr [tx "a"])]);
    (text_state_b, state_msg d0_3 [("transactions", VArr [tx "b"])]);
    (text_state_string, state_msg d0_5 [("transactions", str "ab")]);
    (text_state_no_transactions, state_msg d0_5 []) ].

(** A runtime for the examples.  Chunks are ASCII, so decoding a buffer
    is the identity on code units; [JSON.parse] is tabulated on the texts
    above and rejects every other text used here ([text_garbage] is not
    JSON); the serialiser only has to be injective enough to tell the
    examples apart, and the general relational comparison is not
    exercised (all compared balances are numbers).  A call takes up to
    120000 arguments, the order of what a default stack of about 1 MB
    holds. *)
Definition sample_parse (text : jsstring) : option value :=
  own parse_table text.

Definition sample_stringify (v : value) : jsstring :=
  match v with
  | VObj ((_, VStr kind) :: _) =>
      (json "{'type':'" ++ kind ++ json "',...}")%list
  | _ => json "null"
  end.

#[local] Instance sample_runtime : Runtime := {
  Buffer_toString := fun bytes => bytes;
  JSON_parse := sample_parse;
  JSON_stringify := sample_stringify;
  relational_gt := fun _ _ => Some false;
  max_spread_arguments := 120000
}.





Definition peer (id : nat) (throws : bool) : Connection :=
  {| conn_id := id; write_throws := throws; destroyed := false; written := [] |}.

(** A fresh session: balance 0, empty history, counter 0. *)
Definition fresh : State :=
  {| currentBalance := VNum zero;
     transactionHistory := [];
     connection := peer 1 false;
     malformedMessagesCount := 0;
     console := [] |}.

(** The listener of the examples: wallet name [mywallet]. *)
Definition WALLET_NAME : jsstring := lit "mywallet".
Definition listen : list N -> State -> State :=
  @on_data sample_runtime WALLET_NAME.

(** A function that fails on its first two calls and then succeeds; the
    world counts the calls made. *)
Definition flaky (n : nat) : nat * (exn + nat) :=
  (S n, if (n <? 2)%nat then inl (Error "node unreachable") else inr n).

(** A node that accepts every command and answers with a transaction id. *)
Definition accepting_node (s : Wallet.State) (args : list value)
  : exn + value :=
  inr (str "txid-1").

Definition idle_client : Wallet.State :=
  {| Wallet.client_wallet := VUndefined;
     Wallet.issued := [];
     Wallet.console := [] |}.

Definition with_counter (n : nat) (s : State) : State :=
  {| currentBalance := currentBalance s;
     transactionHistory := transactionHistory s;
     connection := connection s;
     malformedMessagesCount := n;
     console := console s |}.

End Samples.

(* ===================================================================== *)
(** * Vocabulary of the statements                                         *)
(* ===================================================================== *)

Import JS Eff Peer.

(** A key that sorts the numbers other than NaN as the comparison does:
    sign class first, then exponent, then mantissa. *)
Definition rank (x : number) : Z * Z * Z :=
  match x with
  | S754_infinity true => (-2, 0, 0)
  | S754_finite true m e => (-1, - e, - Zpos m)
  | S754_zero _ => (0, 0, 0)
  | S754_nan => (0, 0, 0)
  | S754_finite false m e => (1, e, Zpos m)
  | S754_infinity false => (2, 0, 0)
  end%Z.

Definition lex_lt (a b : Z * Z * Z) : Prop :=
  let '(a1, a2, a3) := a in
  let '(b1, b2, b3) := b in
  (a1 < b1 \/ (a1 = b1 /\ (a2 < b2 \/ (a2 = b2 /\ a3 < b3))))%Z.

(** The chunk [data] decodes to the JSON value [message]. *)
Definition parses_to `{Runtime} (data : list N) (message : value) : Prop :=
  JSON_parse (Buffer_toString data) = Some message.

(** [message.type] is the string [kind]. *)
Definition has_kind (message : value) (kind : string) : Prop :=
  Get message (lit "type") = inr (VStr (lit kind)).

(** [message] is one of the three kinds the listener acts on. *)
Definition recognized (message : value) : bool :=
  match Get message (lit "type") with
  | inr type =>
      strict_eq_lit type "transaction"
      || strict_eq_lit type "state-request"
      || strict_eq_lit type "state"
  | inl _ => false
  end.

(** A [state] message carrying [balance] and [transactions]. *)
Definition state_message (message balance transactions : value) : Prop :=
  has_kind message "state" /\
  exists d,
    Get message (lit "data") = inr d /\
    Get d (lit "balance") = inr balance /\
    Get d (lit "transactions") = inr transactions.

(** A [transaction] message carrying [record]. *)
Definition transaction_message (message record : value) : Prop :=
  has_kind message "transaction" /\ Get message (lit "data") = inr record.

Definition is_primitive (v : value) : bool :=
  match v with
  | VArr _ | VObj _ => false
  | _ => true
  end.

(** A transaction record: an object whose [sender], [recipient], [amount]
    and [txId], where present, are primitive values. *)
Definition TransactionRecord (record : value) : Prop :=
  exists props,
    record = VObj props /\
    forall k, In k ["sender"; "recipient"; "amount"; "txId"]%string ->
      match own props (lit k) with
      | Some v => is_primitive v = true
      | None => True
      end.

(** The wallet view of a state: balance and history. *)
Definition view (s : State) : value * list value :=
  (currentBalance s, transactionHistory s).

(** Values a spread rejects. *)
Definition not_iterable (v : value) : bool :=
  match v with
  | VArr _ | VStr _ => false
  | _ => true
  end.

Definition is_nullish (v : value) : bool :=
  match v with
  | VUndefined | VNull => true
  | _ => false
  end.

(** [s] with [entries] printed after what the console already shows. *)
Definition logged (s : State) (entries : list log_entry) : State :=
  {| currentBalance := currentBalance s;
     transactionHistory := transactionHistory s;
     connection := connection s;
     malformedMessagesCount := malformedMessagesCount s;
     console := console s ++ entries |}.

(** The chunk [data] is a [state] message whose balance is the number [b]
    (not NaN: JSON has no notation for it) and whose transactions are an
    array. *)
Definition state_chunk `{Runtime} (data : list N) (b : number) : Prop :=
  is_NaN b = false /\
  exists message transactions,
    parses_to data message /\
    state_message message (VNum b) (VArr transactions).

(** The events of [k] failed attempts in a row, the first being attempt
    number [attempt] with [delay] milliseconds to wait after it. *)
Fixpoint failed_attempts (k : nat) (attempt delay : Z) : list Retry.event :=
  match k with
  | O => []
  | S k' =>
      [Retry.Called; Retry.Warned attempt delay; Retry.Slept delay]
      ++ failed_attempts k' (attempt + 1)%Z (delay * 2)%Z
  end.

(** The delays of [k] failed attempts: [delay], doubled each time. *)
Fixpoint backoff (k : nat) (delay : Z) : list Z :=
  match k with
  | O => []
  | S k' => delay :: backoff k' (delay * 2)%Z
  end.

Definition positive_number (amount : number) : Prop :=
  num_gt amount zero = true.

Definition non_empty_string (v : value) : Prop :=
  exists c s, v = VStr (c :: s).

(** What [transactionHistory.push(...transactions)] appends: the elements
    the spread yields, or [None] when the call throws (the value is not
    iterable, or yields more elements than one call can take). *)
Definition spreadable `{Runtime} (transactions : value) : option (list value) :=
  match spread transactions with
  | inr items => if fits_one_call items then Some items else None
  | inl _ => None
  end.

(** A [state_chunk] whose transactions fit in one call. *)
Definition small_state_chunk `{Runtime} (data : list N) (b : number) : Prop :=
  is_NaN b = false /\
  exists message transactions,
    parses_to data message /\
    state_message message (VNum b) (VArr transactions) /\
    fits_one_call transactions = true.

(** How many of [chunks] reach the listener: delivery stops when the
    connection is destroyed. *)
Fixpoint delivered_count `{Runtime} (WALLET_NAME : jsstring)
    (chunks : list (list N)) (s : State) : nat :=
  match chunks with
  | [] => 0
  | data :: rest =>
      if destroyed (connection s) then 0
      else S (delivered_count WALLET_NAME rest (on_data WALLET_NAME data s))
  end.

(* ===================================================================== *)
(** * wallet.js: the operations that talk to the node                      *)
(* ===================================================================== *)

Module WalletRpc.
Import JS.
Local Open Scope string_scope.

(** What these functions can catch: an exception of the script itself, or
    the rejection of an RPC command.  [code] is the integer value of the
    rejection's [code] property ([None] when it has none or it is not an
    integer). *)
Inductive thrown :=
| Js (e : exn)
| Rpc (code : option Z) (message : string).

(** [error.code === c] for an integer literal [c]. *)
Definition code_is (error : thrown) (c : Z) : bool :=
  match error with
  | Rpc (Some c') _ => Z.eqb c' c
  | _ => false
  end.

(** A console line: the text of the source's template (without its
    double quotes), the values it prints, and for [console.error] the
    error whose message it adds. *)
Inductive log_entry :=
| Log (line : string) (args : list value)
| Log_error (line : string) (args : list value) (error : thrown).

(** The RPC client: the wallet it is set to, the commands issued so far,
    each with the wallet the client was set to when it was issued (the
    wallet the node runs it on); and the console. *)
Record State := {
  client_wallet : value;
  issued : list (value * list value);
  console : list log_entry
}.

Definition M (A : Type) : Type := State -> State * (thrown + A).

Definition ret {A} (a : A) : M A := fun s => (s, inr a).
Definition throw {A} (e : thrown) : M A := fun s => (s, inl e).
Definition bind {A B} (m : M A) (f : A -> M B) : M B :=
  fun s =>
    match m s with
    | (s', inr a) => f a s'
    | (s', inl e) => (s', inl e)
    end.
Definition try_catch {A} (body : M A) (handler : thrown -> M A) : M A :=
  fun s =>
    match body s with
    | (s', inr a) => (s', inr a)
    | (s', inl e) => handler e s'
    end.

Declare Scope rpc_scope.
Delimit Scope rpc_scope with rpc.
Notation "x <- m ;; k" := (bind m (fun x => k))
  (at level 61, m at next level, right associativity) : rpc_scope.
Notation "m ;; k" := (bind m (fun _ => k))
  (at level 61, right associativity) : rpc_scope.
Local Open Scope rpc_scope.

Definition console_log (line : string) (args : list value) : M unit :=
  fun s =>
    ({| client_wallet := client_wallet s;
        issued := issued s;
        console := console s ++ [Log line args] |}, inr tt).

Definition console_error (line : string) (args : list value) (error : thrown)
  : M unit :=
  fun s =>
    ({| client_wallet := client_wallet s;
        issued := issued s;
        console := console s ++ [Log_error line args error] |}, inr tt).

(** [client.wallet = w]. *)
Definition set_client_wallet (w : value) : M unit :=
  fun s =>
    ({| client_wallet := w;
        issued := issued s;
        console := console s |}, inr tt).

(** Evaluating a template literal that interpolates [vs]. *)
Definition template (vs : list value) : M unit :=
  if existsb ToString_throws vs then throw (Js TypeError) else ret tt.

Definition validate_name (walletName : value) : M unit :=
  match Wallet.validateWalletName walletName with
  | inl e => throw (Js e)
  | inr _ => ret tt
  end.

(** The double nearest to an integer. *)
Definition num_of_Z (z : Z) : number := binary_normalize 53 1024 z 0 false.

(** [v.length]. *)
Definition length_of (v : value) : M value :=
  match v with
  | VUndefined | VNull => throw (Js TypeError)
  | VArr elems => ret (VNum (num_of_Z (Z.of_nat (List.length elems))))
  | VStr s => ret (VNum (num_of_Z (Z.of_nat (List.length s))))
  | VObj props =>
      ret (match own props (lit "length") with
           | Some x => x
           | None => VUndefined
           end)
  | _ => ret VUndefined
  end.

Section Client.
(** The node's answer to a command, given the client as it is when the
    command is issued. *)
Variable node : State -> list value -> thrown + value.

(** [await client.command(...args)]. *)
Definition client_command (args : list value) : M value :=
  fun s =>
    ({| client_wallet := client_wallet s;
        issued := issued s ++ [(client_wallet s, args)];
        console := console s |},
     node s args).

Definition loadWallet (walletName : value) : M unit :=
  try_catch
    (template [walletName] ;;
     console_log "Loading wallet: ${walletName}..." [walletName] ;;
     result <- client_command [VStr (lit "loadwallet"); walletName] ;;
     template [walletName] ;;
     console_log "Wallet ${walletName} loaded successfully:"
       [walletName; result])
    (fun error =>
       if code_is error (-35) then
         template [walletName] ;;
         console_log "Wallet ${walletName} is already loaded." [walletName]
       else
         template [walletName] ;;
         console_error "Error loading wallet ${walletName}:"
           [walletName] error ;;
         throw error).

Definition ensureWalletExists (walletName : value) : M unit :=
  try_catch
    (_ <- client_command [VStr (lit "loadwallet"); walletName] ;;
     template [walletName] ;;
     console_log "Wallet ${walletName} loaded successfully." [walletName])
    (fun error =>
       if code_is error (-18) then
         template [walletName] ;;
         console_log
           "Wallet ${walletName} does not exist. Creating it in Bitcoin Core..."
           [walletName] ;;
         result <- client_command [VStr (lit "createwallet"); walletName] ;;
         template [walletName] ;;
         console_log "Wallet ${walletName} created in Bitcoin Core:"
           [walletName; result]
       else if code_is error (-35) then
         template [walletName] ;;
         console_log "Wallet ${walletName} is already loaded." [walletName]
       else throw error).

(** [fundWallet(walletName, numberOfBlocks = 101)]: the default applies
    when the argument is [undefined]. *)
Definition fundWallet (walletName numberOfBlocks : value) : M unit :=
  let numberOfBlocks :=
    match numberOfBlocks with
    | VUndefined => VNum (num_of_Z 101)
    | v => v
    end in
  try_catch
    (validate_name walletName ;;
     template [walletName; numberOfBlocks] ;;
     console_log "Funding wallet ${walletName} with ${numberOfBlocks} blocks..."
       [walletName; numberOfBlocks] ;;
     ensureWalletExists walletName ;;
     set_client_wallet walletName ;;
     miningAddress <- client_command [VStr (lit "getnewaddress")] ;;
     template [miningAddress] ;;
     console_log "Mining rewards will be sent to address: ${miningAddress}"
       [miningAddress] ;;
     blockHashes <- client_command
                      [VStr (lit "generatetoaddress"); numberOfBlocks;
                       miningAddress] ;;
     len <- length_of blockHashes ;;
     template [len] ;;
     console_log "Generated ${blockHashes.length} blocks." [len])
    (fun error =>
       template [walletName] ;;
       console_error "Error funding wallet ${walletName}:" [walletName] error ;;
       throw error).

Definition checkBalance (walletName : value) : M value :=
  try_catch
    (validate_name walletName ;;
     template [walletName] ;;
     console_log "Ensuring wallet ${walletName} is loaded..." [walletName] ;;
     set_client_wallet walletName ;;
     balance <- client_command [VStr (lit "getbalance")] ;;
     template [walletName; balance] ;;
     console_log "Wallet Balance (${walletName}): ${balance} BTC"
       [walletName; balance] ;;
     ret balance)
    (fun error =>
       template [walletName] ;;
       console_error "Error fetching balance for wallet ${walletName}:"
         [walletName] error ;;
       throw error).

Definition generateNewAddress (walletName : value) : M value :=
  try_catch
    (validate_name walletName ;;
     template [walletName] ;;
     console_log "Generating a new Bitcoin address for wallet: ${walletName}..."
       [walletName] ;;
     set_client_wallet walletName ;;
     newAddress <- client_command
                     [VStr (lit "getnewaddress"); VStr []; VStr (lit "bech32")] ;;
     template [newAddress] ;;
     console_log "New Bitcoin address: ${newAddress}" [newAddress] ;;
     ret newAddress)
    (fun error =>
       template [walletName] ;;
       console_error "Error generating new address for wallet ${walletName}:"
         [walletName] error ;;
       throw error).

End Client.
End WalletRpc.

(* ===================================================================== *)
(** * verifyTransaction                                                    *)
(* ===================================================================== *)

Module Verify.
Import JS.

Inductive log_entry :=
| Log_verified (txId txDetails : value)
| Error_failed_to_verify (txId : value) (error : exn).

Section Verify.
Variable node : Wallet.State -> list value -> exn + value.

(** The function handed to [retryWithBackoff]. *)
Definition gettransaction (txId : value) : Wallet.State -> Wallet.State * (exn + value) :=
  Wallet.client_command node [VStr (lit "gettransaction"); txId].

(** The [catch] block: it formats its message with [txId], then returns
    [false]. *)
Definition on_failure (txId : value) (error : exn)
  : list log_entry * (exn + bool) :=
  if ToString_throws txId then ([], inl TypeError)
  else ([Error_failed_to_verify txId error], inr false).

(** [verifyTransaction(txId)]: the client after the call, the events of
    the retry loop, the lines printed and the result.  [None] is the
    retry loop out of fuel. *)
Definition verifyTransaction (txId : value) (w : Wallet.State)
  : option (Wallet.State * list Retry.event * list log_entry * (exn + bool)) :=
  match Retry.retryWithBackoff_default (gettransaction txId) w with
  | None => None
  | Some (w', tr, outcome) =>
      let verified (txDetails : value) :=
        if ToString_throws txId then on_failure txId TypeError
        else ([Log_verified txId txDetails], inr true) in
      let '(out, r) :=
        match outcome with
        | Retry.Resolved txDetails => verified txDetails
        | Retry.ResolvedUndefined => verified VUndefined
        | Retry.Rejected error => on_failure txId error
        end in
      Some (w', tr, out, r)
  end.

End Verify.
End Verify.

(* ===================================================================== *)
(** * Vocabulary of the further statements                                 *)
(* ===================================================================== *)

(** Not usable as a wallet name: not a string, or a string made of white
    space only (the empty string included). *)
Definition unusable_name (v : JS.value) : Prop :=
  match v with
  | JS.VStr s => forall c, In c s -> JS.is_white c = true
  | _ => True
  end.

(** A string with at least one character that is not white space. *)
Definition usable_name (v : JS.value) : Prop :=
  exists s c, v = JS.VStr s /\ In c s /\ JS.is_white c = false.

(** The initial delays for which [k] doublings stay what the source
    computes and what [setTimeout] takes as it is: an integer number of
    milliseconds, at least 1, whose [k]-th doubling is at most 2^31 - 1
    (such integers are exact as doubles). *)
Definition within_timer_range (delay : Z) (k : nat) : Prop :=
  (1 <= delay)%Z /\ (delay * 2 ^ Z.of_nat k <= 2147483647)%Z.

(** The commands of [wallet.js], as passed to [client.command]. *)
Definition cmd_loadwallet (walletName : JS.value) : list JS.value :=
  [JS.VStr (JS.lit "loadwallet"); walletName].
Definition cmd_createwallet (walletName : JS.value) : list JS.value :=
  [JS.VStr (JS.lit "createwallet"); walletName].
Definition cmd_getnewaddress : list JS.value :=
  [JS.VStr (JS.lit "getnewaddress")].
Definition cmd_getnewaddress_bech32 : list JS.value :=
  [JS.VStr (JS.lit "getnewaddress"); JS.VStr []; JS.VStr (JS.lit "bech32")].
Definition cmd_generatetoaddress (numberOfBlocks miningAddress : JS.value)
  : list JS.value :=
  [JS.VStr (JS.lit "generatetoaddress"); numberOfBlocks; miningAddress].
Definition cmd_getbalance : list JS.value :=
  [JS.VStr (JS.lit "getbalance")].
Definition cmd_sendtoaddress (recipientAddress : JS.value) (amount : JS.number)
  : list JS.value :=
  [JS.VStr (JS.lit "sendtoaddress"); recipientAddress; JS.VNum amount].

(* ===================================================================== *)
(** * Further sample inputs                                                *)
(* ===================================================================== *)

Module Samples2.
Import JS Peer.
Local Open Scope string_scope.

(** Two peers: A holds 0.5 and the transaction [a], B holds 0.3 and the
    transaction [b]. *)
Definition nameA : jsstring := lit "walletA".
Definition nameB : jsstring := lit "walletB".

Definition pushA : value :=
  Samples.obj
    [("type", Samples.str "state");
     ("data", Samples.obj [("walletName", Samples.str "walletA");
                           ("balance", VNum Samples.d0_5);
                           ("transactions", VArr [Samples.tx "a"])])].

Definition pushB : value :=
  Samples.obj
    [("type", Samples.str "state");
     ("data", Samples.obj [("walletName", Samples.str "walletB");
                           ("balance", VNum Samples.d0_3);
                           ("transactions", VArr [Samples.tx "b"])])].

Definition text_pushA :=
  Samples.json
    "{'type':'state','data':{'walletName':'walletA','balance':0.5,'transactions':[{'txId':'a'}]}}".
Definition text_pushB :=
  Samples.json
    "{'type':'state','data':{'walletName':'walletB','balance':0.3,'transactions':[{'txId':'b'}]}}".

(** A runtime whose [JSON.parse] is tabulated on the two pushes. *)
#[local] Instance exchange_runtime : Runtime := {
  Buffer_toString := fun bytes => bytes;
  JSON_parse := own [(text_pushA, pushA); (text_pushB, pushB)];
  JSON_stringify := Samples.sample_stringify;
  relational_gt := fun _ _ => Some false;
  max_spread_arguments := 120000
}.

(** A function that always fails. *)
Definition always_down (n : nat) : nat * (exn + nat) :=
  (S n, inl (Error "node unreachable")).

(** The name of a command. *)
Definition is_command (args : list value) (name : string) : bool :=
  match args with
  | VStr c :: _ => str_eqb c (lit name)
  | _ => false
  end.

(** A node on which the wallet is already loaded. *)
Definition loaded_node (s : WalletRpc.State) (args : list value)
  : WalletRpc.thrown + value :=
  if is_command args "loadwallet"
  then inl (WalletRpc.Rpc (Some (-35)%Z) "Wallet is already loaded")
  else if is_command args "getnewaddress" then inr (Samples.str "bcrt1qmine")
  else if is_command args "generatetoaddress"
       then inr (VArr [Samples.str "hash1"; Samples.str "hash2"])
  else if is_command args "getbalance" then inr (VNum Samples.d0_5)
  else inr VNull.

(** A node that does not know the wallet yet and creates it on request. *)
Definition fresh_node (s : WalletRpc.State) (args : list value)
  : WalletRpc.thrown + value :=
  if is_command args "loadwallet"
  then inl (WalletRpc.Rpc (Some (-18)%Z) "Wallet file not found")
  else inr VNull.

Definition idle_rpc : WalletRpc.State :=
  {| WalletRpc.client_wallet := VUndefined;
     WalletRpc.issued := [];
     WalletRpc.console := [] |}.

End Samples2.
(* ===================================================================== *)
(** * The order of numbers                                                 *)
(* ===================================================================== *)

Unset Implicit Arguments.

Ltac compare_cases :=
  repeat match goal with
  | |- context [Pos.compare_cont Eq ?a ?b] =>
      change (Pos.compare_cont Eq a b) with (Pos.compare a b)
  | |- context [Z.compare ?a ?b] => destruct (Z.compare_spec a b)
  | |- context [Pos.compare ?a ?b] => destruct (Pos.compare_spec a b)
  end.

Lemma num_lt_rank {x y : number} :
  is_NaN x = false -> is_NaN y = false ->
  (SFltb x y = true <-> lex_lt (rank x) (rank y)).
Proof.
  intros Hx Hy.
  destruct x as [sx|sx| |sx mx ex], y as [sy|sy| |sy my ey];
    try discriminate; try destruct sx; try destruct sy;
    unfold SFltb, SFcompare, rank, lex_lt;
    compare_cases; simpl; split; intros; try discriminate; try reflexivity;
    try lia.
Qed.

Lemma num_le_rank {x y : number} :
  is_NaN x = false -> is_NaN y = false ->
  (SFleb x y = true <-> ~ lex_lt (rank y) (rank x)).
Proof.
  intros Hx Hy.
  destruct x as [sx|sx| |sx mx ex], y as [sy|sy| |sy my ey];
    try discriminate; try destruct sx; try destruct sy;
    unfold SFleb, SFcompare, rank, lex_lt;
    compare_cases; simpl; split; intros; try discriminate; try reflexivity;
    try lia.
Qed.

Lemma num_gt_NaN_l (x y : number) : is_NaN x = true -> num_gt x y = false.
Proof. destruct x; try discriminate. destruct y; reflexivity. Qed.

Lemma num_le_not_NaN (x y : number) :
  num_le x y = true -> is_NaN x = false /\ is_NaN y = false.
Proof. destruct x, y; try discriminate; split; reflexivity. Qed.

(** [b <= c] excludes [b > c]. *)
Lemma num_le_not_gt (b c : number) : num_le b c = true -> num_gt b c = false.
Proof.
  intros H. destruct (num_le_not_NaN _ _ H) as [Hb Hc].
  apply (num_le_rank Hb Hc) in H.
  unfold num_gt. destruct (SFltb c b) eqn:E; [|reflexivity].
  apply (num_lt_rank Hc Hb) in E. contradiction.
Qed.

(** Away from NaN the order is total: not [b > c] means [b <= c]. *)
Lemma num_not_gt_le (b c : number) :
  is_NaN b = false -> is_NaN c = false ->
  num_gt b c = false -> num_le b c = true.
Proof.
  intros Hb Hc H. apply (num_le_rank Hb Hc). intros L.
  apply (num_lt_rank Hc Hb) in L. unfold num_gt in H. congruence.
Qed.

Lemma num_gt_le (b c : number) : num_gt b c = true -> num_le c b = true.
Proof.
  unfold num_gt, num_le, SFltb, SFleb.
  destruct (SFcompare c b) as [[]|]; congruence.
Qed.

Lemma num_gt_not_NaN (b c : number) :
  num_gt b c = true -> is_NaN b = false /\ is_NaN c = false.
Proof. intros H. apply num_gt_le in H. apply num_le_not_NaN in H. tauto. Qed.

Lemma num_le_refl (x : number) : is_NaN x = false -> num_le x x = true.
Proof.
  intros Hx. apply (num_le_rank Hx Hx).
  unfold lex_lt. destruct (rank x) as [[a b] c]. lia.
Qed.

Lemma num_le_trans (x y z : number) :
  num_le x y = true -> num_le y z = true -> num_le x z = true.
Proof.
  intros Hxy Hyz.
  destruct (num_le_not_NaN _ _ Hxy) as [Hx Hy].
  destruct (num_le_not_NaN _ _ Hyz) as [_ Hz].
  apply (num_le_rank Hx Hy) in Hxy. apply (num_le_rank Hy Hz) in Hyz.
  apply (num_le_rank Hx Hz).
  unfold lex_lt in *.
  destruct (rank x) as [[a1 a2] a3], (rank y) as [[b1 b2] b3],
           (rank z) as [[c1 c2] c3].
  lia.
Qed.
(* ===================================================================== *)
(** * Properties of the ['data'] listener                                  *)
(* ===================================================================== *)

(** The spec's scenario (section 8). *)
Example scenario_section_8 :
  let s1 := Samples.listen Samples.text_state_a Samples.fresh in
  let s2 := Samples.listen Samples.text_state_b s1 in
  let s3 := Samples.listen Samples.text_transaction_c s2 in
  (currentBalance s1, transactionHistory s1)
    = (VNum Samples.d0_5, [Samples.tx "a"])
  /\ (currentBalance s2, transactionHistory s2)
    = (VNum Samples.d0_5, [Samples.tx "a"])
  /\ (currentBalance s3, transactionHistory s3)
    = (VNum Samples.d0_5, [Samples.tx "a"; Samples.record_c]).
Proof. vm_compute. repeat split. Qed.


(** The sample balances are canonical binary64 values. *)
Example sample_balances_are_doubles :
  forallb (valid_binary 53 1024)
    [Samples.d0_5; Samples.d0_3; Samples.d0_1] = true.
Proof. reflexivity. Qed.

(** Opening a session pushes the serialised state to the peer. *)
Example session_opening_pushes_state :
  let r := @handlePeerConnection Samples.sample_runtime Samples.WALLET_NAME
             (VNum zero) [] [] (Samples.peer 1 false) in
  snd r = inr tt
  /\ malformedMessagesCount (fst r) = 0
  /\ List.length (written (connection (fst r))) = 1
  /\ console (fst r) = [Log_new_peer].
Proof. vm_compute. repeat split. Qed.

Section Listener.
Context {rt : Runtime}.
Variable WALLET_NAME : jsstring.

Arguments lit : simpl never.
Arguments strict_eq_lit : simpl never.
Arguments Nat.ltb : simpl never.

Ltac run :=
  unfold Peer.on_data, Peer.dispatch_throws, try_catch, Peer.dispatch, on_error, view;
  unfold transactionHistory_push_spread;
  unfold bind, lift, read, ret, throw, console_log, set_currentBalance,
    transactionHistory_push, increment_malformed, connection_destroy, modify.

Ltac kinds :=
  repeat match goal with
  | |- context [strict_eq_lit (VStr (lit ?a)) ?b] =>
      let r := eval vm_compute in (strict_eq_lit (VStr (lit a)) b) in
      change (strict_eq_lit (VStr (lit a)) b) with r
  end.

Ltac split_matches :=
  repeat (match goal with
          | |- context [match ?x with _ => _ end] =>
              lazymatch x with
              | context [match _ with _ => _ end] => fail
              | _ => destruct x eqn:?
              end
          end; cbn).

(** The [try] block never touches the counter, never destroys the
    connection, and has written nothing when it throws. *)
Lemma dispatch_frame (data : list N) (s : State) :
  malformedMessagesCount (fst (dispatch WALLET_NAME data s))
    = malformedMessagesCount s
  /\ destroyed (connection (fst (dispatch WALLET_NAME data s)))
     = destroyed (connection s)
  /\ (dispatch_throws WALLET_NAME data s = true ->
      connection (fst (dispatch WALLET_NAME data s)) = connection s).
Proof.
  run. unfold template, broadcastState, connection_write, write, bind, read.
  cbn. split_matches; repeat split; try discriminate; try reflexivity.
Qed.

Lemma on_data_unfold (data : list N) (s : State) :
  on_data WALLET_NAME data s
  = match snd (dispatch WALLET_NAME data s) with
    | inr _ => fst (dispatch WALLET_NAME data s)
    | inl e => fst (on_error e (fst (dispatch WALLET_NAME data s)))
    end.
Proof.
  unfold on_data, try_catch.
  destruct (dispatch WALLET_NAME data s) as [s' [e|[]]]; reflexivity.
Qed.

(** The [catch] block: the counter goes up by one, the error is logged,
    and the connection is destroyed once the counter is above 3; the
    wallet view is not touched and nothing is written. *)
Lemma on_error_effect (e : exn) (s : State) :
  view (fst (on_error e s)) = view s
  /\ malformedMessagesCount (fst (on_error e s))
     = S (malformedMessagesCount s)
  /\ connection (fst (on_error e s))
     = (if 3 <? S (malformedMessagesCount s)
        then destroy (connection s) else connection s).
Proof.
  run. cbn. destruct (3 <? S (malformedMessagesCount s)); cbn; repeat split.
Qed.

(** The counter moves by one exactly when the [try] block throws. *)
Lemma on_data_counter (data : list N) (s : State) :
  malformedMessagesCount (on_data WALLET_NAME data s)
  = malformedMessagesCount s
    + (if dispatch_throws WALLET_NAME data s then 1 else 0).
Proof.
  rewrite on_data_unfold. unfold dispatch_throws.
  destruct (dispatch_frame data s) as (Hc & _).
  destruct (snd (dispatch WALLET_NAME data s)).
  - destruct (on_error_effect e (fst (dispatch WALLET_NAME data s)))
      as (_ & -> & _). rewrite Hc. lia.
  - rewrite Hc. lia.
Qed.

(** After a chunk on which the [try] block throws. *)
Lemma on_data_after_throw (data : list N) (s : State) :
  dispatch_throws WALLET_NAME data s = true ->
  malformedMessagesCount (on_data WALLET_NAME data s)
    = S (malformedMessagesCount s)
  /\ connection (on_data WALLET_NAME data s)
     = (if 3 <? S (malformedMessagesCount s)
        then destroy (connection s) else connection s).
Proof.
  intros Ht. destruct (dispatch_frame data s) as (Hc & _ & Hw).
  specialize (Hw Ht).
  rewrite on_data_unfold. unfold dispatch_throws in Ht.
  destruct (snd (dispatch WALLET_NAME data s)); [|discriminate].
  destruct (on_error_effect e (fst (dispatch WALLET_NAME data s)))
    as (_ & -> & ->).
  rewrite Hc, Hw. split; reflexivity.
Qed.

(** After a chunk on which the [try] block returns. *)
Lemma on_data_after_return (data : list N) (s : State) :
  dispatch_throws WALLET_NAME data s = false ->
  on_data WALLET_NAME data s = fst (dispatch WALLET_NAME data s).
Proof.
  intros Ht. rewrite on_data_unfold. unfold dispatch_throws in Ht.
  destruct (snd (dispatch WALLET_NAME data s)); [discriminate|reflexivity].
Qed.

Lemma primitive_converts v : is_primitive v = true -> ToString_throws v = false.
Proof. destruct v; simpl; congruence. Qed.

Lemma record_field_converts props k :
  match own props k with
  | Some v => is_primitive v = true
  | None => True
  end ->
  ToString_throws (match own props k with Some x => x | None => VUndefined end)
  = false.
Proof. destruct (own props k); [apply primitive_converts | reflexivity]. Qed.

(** A well-formed [transaction] message: the [try] block returns, having
    logged twice and pushed the record. *)
Lemma transaction_message_effect :
  forall data message record s,
    parses_to data message ->
    transaction_message message record ->
    TransactionRecord record ->
    dispatch_throws WALLET_NAME data s = false
    /\ transactionHistory (on_data WALLET_NAME data s)
       = transactionHistory s ++ [record]
    /\ currentBalance (on_data WALLET_NAME data s) = currentBalance s
    /\ connection (on_data WALLET_NAME data s) = connection s
    /\ malformedMessagesCount (on_data WALLET_NAME data s)
       = malformedMessagesCount s.
Proof.
  intros data message record s Hp [Hk Hd] (props & -> & Hf).
  unfold parses_to in Hp. unfold has_kind in Hk.
  run. rewrite Hp. cbn. rewrite Hk. kinds. cbn. rewrite Hd. cbn.
  unfold template. cbn [existsb].
  rewrite !record_field_converts by (apply Hf; simpl; tauto).
  cbn. repeat split.
Qed.

(** A chunk that is not JSON: the [try] block throws at once. *)
Lemma dispatch_unparseable (data : list N) (s : State) :
  JSON_parse (Buffer_toString data) = None ->
  dispatch WALLET_NAME data s = (s, inl SyntaxError).
Proof. intros H. run. rewrite H. reflexivity. Qed.

Lemma unparseable_effect (data : list N) (s : State) :
  JSON_parse (Buffer_toString data) = None ->
  dispatch_throws WALLET_NAME data s = true
  /\ view (on_data WALLET_NAME data s) = view s
  /\ malformedMessagesCount (on_data WALLET_NAME data s)
     = S (malformedMessagesCount s)
  /\ connection (on_data WALLET_NAME data s)
     = (if 3 <? S (malformedMessagesCount s)
        then destroy (connection s) else connection s).
Proof.
  intros H. rewrite on_data_unfold. unfold dispatch_throws.
  rewrite (dispatch_unparseable _ s H). cbn [fst snd].
  destruct (on_error_effect SyntaxError s) as (Hv & Hc & Hd). tauto.
Qed.

(** JSON [null] (or [undefined]): reading [message.type] throws. *)
Lemma nullish_effect (data : list N) (message : value) (s : State) :
  parses_to data message ->
  is_nullish message = true ->
  dispatch_throws WALLET_NAME data s = true
  /\ view (on_data WALLET_NAME data s) = view s
  /\ malformedMessagesCount (on_data WALLET_NAME data s)
     = S (malformedMessagesCount s).
Proof.
  intros Hp Hn. unfold parses_to in Hp.
  run. rewrite Hp. destruct message; try discriminate; cbn;
    destruct (3 <? S (malformedMessagesCount s)); cbn; repeat split.
Qed.

(** A parseable, non-null message whose [type] is none of the three
    kinds: the listener logs the message and an unknown-type warning, and
    does nothing else. *)
Lemma unknown_kind_effect (data : list N) (message : value) (s : State) :
  parses_to data message ->
  recognized message = false ->
  is_nullish message = false ->
  exists type,
    Get message (lit "type") = inr type
    /\ dispatch_throws WALLET_NAME data s = false
    /\ on_data WALLET_NAME data s
       = logged s [Log_received_message message; Warn_unknown_type type].
Proof.
  intros Hp Hr Hn. unfold parses_to in Hp. unfold recognized in Hr.
  destruct (Get message (lit "type")) as [e|type] eqn:Hg.
  { destruct message; discriminate. }
  exists type. split; [reflexivity|].
  apply orb_false_iff in Hr. destruct Hr as [Hr H3].
  apply orb_false_iff in Hr. destruct Hr as [H1 H2].
  run. rewrite Hp. cbn. rewrite Hg. cbn. rewrite H1, H2, H3. cbn.
  unfold logged. cbn. rewrite <- app_assoc. split; reflexivity.
Qed.


(** C6. A well-formed [transaction] message appends exactly its record at
    the end of [transactionHistory], whatever the balance and whatever the
    history already holds; the balance, the connection and the malformed
    counter are unchanged. *)
Theorem transaction_appends_record :
  forall (data : list N) (message record : value) (s : State),
    parses_to data message ->
    transaction_message message record ->
    TransactionRecord record ->
    transactionHistory (on_data WALLET_NAME data s)
      = transactionHistory s ++ [record]
    /\ currentBalance (on_data WALLET_NAME data s) = currentBalance s
    /\ connection (on_data WALLET_NAME data s) = connection s
    /\ malformedMessagesCount (on_data WALLET_NAME data s)
       = malformedMessagesCount s.
Proof.
  intros data message record s Hp Hm Hr.
  destruct (transaction_message_effect _ _ _ s Hp Hm Hr) as (_ & H). exact H.
Qed.

(** What the listener does with a [state] message whose balance compares
    greater than the local one: the balance is assigned first, then the
    spread of [transactions] is evaluated and pushed; when the push
    throws, the chunk is counted and nothing is appended. *)
Lemma state_message_greater :
  forall data message balance transactions s,
    parses_to data message ->
    state_message message balance transactions ->
    gt balance (currentBalance s) = inr true ->
    currentBalance (on_data WALLET_NAME data s) = balance
    /\ match spreadable transactions with
       | Some items =>
           transactionHistory (on_data WALLET_NAME data s)
             = transactionHistory s ++ items
           /\ malformedMessagesCount (on_data WALLET_NAME data s)
              = malformedMessagesCount s
           /\ dispatch_throws WALLET_NAME data s = false
           /\ connection (on_data WALLET_NAME data s) = connection s
       | None =>
           transactionHistory (on_data WALLET_NAME data s)
             = transactionHistory s
           /\ malformedMessagesCount (on_data WALLET_NAME data s)
              = S (malformedMessagesCount s)
           /\ dispatch_throws WALLET_NAME data s = true
           /\ connection (on_data WALLET_NAME data s)
              = (if 3 <? S (malformedMessagesCount s)
                 then destroy (connection s) else connection s)
       end.
Proof.
  intros data message balance transactions s Hp (Hk & d & Hd & Hb & Ht) Hgt.
  unfold parses_to in Hp. unfold has_kind in Hk.
  unfold spreadable.
  run. rewrite Hp. cbn. rewrite Hk. kinds. cbn. rewrite Hd. cbn.
  rewrite Hb. cbn. rewrite Hgt. cbn. rewrite Ht. cbn.
  destruct (spread transactions) as [e|items]; cbn.
  - destruct (3 <? _); cbn; repeat split.
  - destruct (fits_one_call items); cbn.
    + repeat split.
    + destruct (3 <? _); cbn; repeat split.
Qed.

(** What the listener does with a [state] message whose balance does not
    compare greater than the local one: nothing but logging. *)
Lemma state_message_not_greater :
  forall data message balance transactions s,
    parses_to data message ->
    state_message message balance transactions ->
    gt balance (currentBalance s) = inr false ->
    view (on_data WALLET_NAME data s) = view s
    /\ connection (on_data WALLET_NAME data s) = connection s
    /\ malformedMessagesCount (on_data WALLET_NAME data s)
       = malformedMessagesCount s
    /\ dispatch_throws WALLET_NAME data s = false.
Proof.
  intros data message balance transactions s Hp (Hk & d & Hd & Hb & Ht) Hgt.
  unfold parses_to in Hp. unfold has_kind in Hk.
  run. rewrite Hp. cbn. rewrite Hk. kinds. cbn. rewrite Hd. cbn.
  rewrite Hb. cbn. rewrite Hgt. cbn. repeat split.
Qed.

Lemma spreadable_array (transactions : list value) :
  spreadable (VArr transactions)
  = if fits_one_call transactions then Some transactions else None.
Proof. reflexivity. Qed.

Lemma spreadable_not_iterable (transactions : value) :
  not_iterable transactions = true -> spreadable transactions = None.
Proof. destruct transactions; cbn; congruence. Qed.


(** C10 (amended). A [state] message whose balance compares greater than
    the local balance and whose [transactions] is absent, [null], a
    number, a boolean or a plain object (anything a spread rejects): the
    balance is assigned before the spread throws, so the new balance stays
    while the history is unchanged, and the chunk counts as malformed. *)
Theorem state_merge_is_not_atomic :
  forall (data : list N) (message balance transactions : value) (s : State),
    parses_to data message ->
    state_message message balance transactions ->
    gt balance (currentBalance s) = inr true ->
    not_iterable transactions = true ->
    currentBalance (on_data WALLET_NAME data s) = balance
    /\ transactionHistory (on_data WALLET_NAME data s) = transactionHistory s
    /\ dispatch_throws WALLET_NAME data s = true
    /\ malformedMessagesCount (on_data WALLET_NAME data s)
       = S (malformedMessagesCount s).
Proof.
  intros data message balance transactions s Hp Hm Hgt Hn.
  destruct (state_message_greater _ _ _ _ s Hp Hm Hgt) as (Hb & Hs).
  rewrite (spreadable_not_iterable _ Hn) in Hs. tauto.
Qed.


(** C7 (amended). Among the chunks that are not of a recognised kind, the
    listener fails (and counts the chunk as malformed) exactly on bytes
    that are not JSON and on JSON [null].  Every other parseable message
    whose discriminator is missing or outside the three recognised kinds
    is accepted: the message and an unknown-type warning are logged, and
    the wallet view, the connection and the malformed counter are
    unchanged. *)
Theorem unrecognised_kind_is_accepted :
  forall (data : list N) (s : State),
    (JSON_parse (Buffer_toString data) = None ->
       dispatch_throws WALLET_NAME data s = true
       /\ malformedMessagesCount (on_data WALLET_NAME data s)
          = S (malformedMessagesCount s)
       /\ view (on_data WALLET_NAME data s) = view s)
    /\ (forall message,
          parses_to data message -> recognized message = false ->
          (is_nullish message = true ->
             dispatch_throws WALLET_NAME data s = true
             /\ malformedMessagesCount (on_data WALLET_NAME data s)
                = S (malformedMessagesCount s)
             /\ view (on_data WALLET_NAME data s) = view s)
          /\ (is_nullish message = false ->
                exists type,
                  Get message (lit "type") = inr type
                  /\ dispatch_throws WALLET_NAME data s = false
                  /\ on_data WALLET_NAME data s
                     = logged s [Log_received_message message;
                                 Warn_unknown_type type])).
Proof.
  intros data s. split.
  - intros H. destruct (unparseable_effect _ s H) as (Ht & Hv & Hc & _). tauto.
  - intros message Hp Hr. split; intros Hn.
    + destruct (nullish_effect _ _ s Hp Hn) as (Ht & Hv & Hc). tauto.
    + apply (unknown_kind_effect _ _ s Hp Hr Hn).
Qed.

(** Once the connection is destroyed no chunk reaches the listener. *)
Lemma deliver_destroyed (chunks : list (list N)) (s : State) :
  destroyed (connection s) = true -> deliver WALLET_NAME chunks s = s.
Proof. intros H. destruct chunks; cbn; [|rewrite H]; reflexivity. Qed.

(** A run of chunks that are not JSON, on an open connection: each one
    is counted; the fourth count destroys the connection and the rest of
    the run is not delivered. *)
Lemma deliver_unparseable :
  forall (chunks : list (list N)) (s : State),
    Forall (fun data => JSON_parse (Buffer_toString data) = None) chunks ->
    destroyed (connection s) = false ->
    malformedMessagesCount s <= 3 ->
    view (deliver WALLET_NAME chunks s) = view s
    /\ malformedMessagesCount (deliver WALLET_NAME chunks s)
       = Nat.min (malformedMessagesCount s + List.length chunks) 4
    /\ destroyed (connection (deliver WALLET_NAME chunks s))
       = (3 <? malformedMessagesCount s + List.length chunks)
    /\ written (connection (deliver WALLET_NAME chunks s))
       = written (connection s).
Proof.
  induction chunks as [|data rest IH]; intros s Hall Hopen Hle.
  - cbn. rewrite Nat.add_0_r.
    replace (3 <? malformedMessagesCount s) with false
      by (symmetry; apply Nat.ltb_ge; lia).
    repeat split; [lia | exact Hopen].
  - inversion Hall as [|? ? Hd Hrest]; subst.
    cbn [deliver List.length]. rewrite Hopen.
    destruct (unparseable_effect _ s Hd) as (_ & Hv & Hc & Hconn).
    destruct (3 <? S (malformedMessagesCount s)) eqn:Hlt.
    + apply Nat.ltb_lt in Hlt.
      rewrite deliver_destroyed by (rewrite Hconn; reflexivity).
      rewrite Hv, Hc, Hconn. cbn.
      replace (3 <? malformedMessagesCount s + S (List.length rest)) with true
        by (symmetry; apply Nat.ltb_lt; lia).
      repeat split; lia.
    + apply Nat.ltb_ge in Hlt.
      destruct (IH (on_data WALLET_NAME data s) Hrest) as (Iv & Ic & Id & Iw).
      * rewrite Hconn. exact Hopen.
      * rewrite Hc. exact Hlt.
      * rewrite Iv, Ic, Id, Iw, Hv, Hc, Hconn.
        replace (S (malformedMessagesCount s) + List.length rest)
          with (malformedMessagesCount s + S (List.length rest)) by lia.
        repeat split.
Qed.

(** C5. The malformed counter never goes down.  A chunk on which the
    listener fails raises it by one and writes nothing to the peer; while
    the new count is at most 3 the connection is left as it was, and when
    the new count exceeds 3 the connection is destroyed.  A destroyed
    session delivers nothing further: the wallet view, like the whole
    state, stays as it is.  In particular, from a count of at most 3 on
    an open connection, a run of chunks that are not JSON is counted up
    to 4, closes the session at that point and never touches the wallet
    view. *)
Theorem malformed_threshold_closes_session :
  forall (data : list N) (s : State),
    malformedMessagesCount s <= malformedMessagesCount (on_data WALLET_NAME data s)
    /\ (dispatch_throws WALLET_NAME data s = true ->
        malformedMessagesCount (on_data WALLET_NAME data s)
          = S (malformedMessagesCount s)
        /\ written (connection (on_data WALLET_NAME data s))
           = written (connection s)
        /\ (S (malformedMessagesCount s) <= 3 ->
            connection (on_data WALLET_NAME data s) = connection s)
        /\ (3 < S (malformedMessagesCount s) ->
            destroyed (connection (on_data WALLET_NAME data s)) = true))
    /\ (forall chunks,
          destroyed (connection s) = true ->
          deliver WALLET_NAME chunks s = s)
    /\ (forall chunks,
          Forall (fun d => JSON_parse (Buffer_toString d) = None) chunks ->
          destroyed (connection s) = false ->
          malformedMessagesCount s <= 3 ->
          view (deliver WALLET_NAME chunks s) = view s
          /\ malformedMessagesCount (deliver WALLET_NAME chunks s)
             = Nat.min (malformedMessagesCount s + List.length chunks) 4
          /\ destroyed (connection (deliver WALLET_NAME chunks s))
             = (3 <? malformedMessagesCount s + List.length chunks)).
Proof.
  intros data s. split; [rewrite on_data_counter; lia|].
  split.
  { intros Ht. destruct (on_data_after_throw _ s Ht) as (Hc & Hconn).
    split; [exact Hc|]. rewrite Hconn.
    destruct (3 <? S (malformedMessagesCount s)) eqn:Hlt.
    - apply Nat.ltb_lt in Hlt. repeat split; intros; try reflexivity; lia.
    - apply Nat.ltb_ge in Hlt. repeat split; intros; try reflexivity; lia. }
  split; [intros chunks Hd; apply deliver_destroyed; exact Hd|].
  intros chunks Hall Hopen Hle.
  destruct (deliver_unparseable _ s Hall Hopen Hle) as (Hv & Hc & Hd & _).
  tauto.
Qed.

Lemma deliver_app (l1 l2 : list (list N)) (s : State) :
  deliver WALLET_NAME (l1 ++ l2) s
  = deliver WALLET_NAME l2 (deliver WALLET_NAME l1 s).
Proof.
  revert s. induction l1 as [|data l1 IH]; intros s; [reflexivity|].
  cbn. destruct (destroyed (connection s)) eqn:Hd; [|apply IH].
  symmetry. apply deliver_destroyed. exact Hd.
Qed.

(** One [state] message with a numeric balance against a numeric local
    balance: the larger of the two is kept, whether or not the push of
    the transactions throws. *)
Lemma state_chunk_step (data : list N) (b c : number) (s : State) :
  state_chunk data b ->
  currentBalance s = VNum c ->
  currentBalance (on_data WALLET_NAME data s)
    = VNum (if num_gt b c then b else c).
Proof.
  intros (Hb & message & transactions & Hp & Hm) Hc.
  destruct (num_gt b c) eqn:Hgt.
  - destruct (state_message_greater _ _ _ _ s Hp Hm) as (H1 & _).
    + rewrite Hc. cbn. now rewrite Hgt.
    + exact H1.
  - destruct (state_message_not_greater _ _ _ _ s Hp Hm) as (H1 & _).
    + rewrite Hc. cbn. now rewrite Hgt.
    + unfold view in H1. inversion H1 as [[Hbal Hhist]].
      rewrite Hbal, Hc. reflexivity.
Qed.

(** When the transactions fit in one call the listener does not touch
    the connection. *)
Lemma small_state_chunk_step (data : list N) (b c : number) (s : State) :
  small_state_chunk data b ->
  currentBalance s = VNum c ->
  connection (on_data WALLET_NAME data s) = connection s.
Proof.
  intros (Hb & message & transactions & Hp & Hm & Hfit) Hc.
  destruct (num_gt b c) eqn:Hgt.
  - destruct (state_message_greater _ _ _ _ s Hp Hm) as (_ & H2).
    + rewrite Hc. cbn. now rewrite Hgt.
    + rewrite spreadable_array, Hfit in H2. tauto.
  - destruct (state_message_not_greater _ _ _ _ s Hp Hm) as (_ & H2 & _).
    + rewrite Hc. cbn. now rewrite Hgt.
    + exact H2.
Qed.

Lemma small_state_chunk_is_state_chunk (data : list N) (b : number) :
  small_state_chunk data b -> state_chunk data b.
Proof.
  intros (Hb & message & transactions & Hp & Hm & _).
  split; [exact Hb|]. exists message, transactions. tauto.
Qed.

Lemma deliver_state_chunks :
  forall (chunks : list (list N)) (balances : list number),
    Forall2 state_chunk chunks balances ->
    forall (s : State) (c0 : number),
      currentBalance s = VNum c0 ->
      is_NaN c0 = false ->
      exists m,
        currentBalance (deliver WALLET_NAME chunks s) = VNum m
        /\ is_NaN m = false
        /\ In m (c0 :: firstn (delivered_count WALLET_NAME chunks s) balances)
        /\ (forall x,
              In x (c0 :: firstn (delivered_count WALLET_NAME chunks s) balances) ->
              num_le x m = true).
Proof.
  induction 1 as [|data b chunks balances Hchunk Hrest IH];
    intros s c0 Hc Hnan.
  - exists c0. cbn. repeat split; auto.
    intros x [<-|[]]. apply num_le_refl. exact Hnan.
  - cbn [deliver delivered_count].
    destruct (destroyed (connection s)) eqn:Hopen.
    { exists c0. cbn. repeat split; auto.
      intros x [<-|[]]. apply num_le_refl. exact Hnan. }
    pose proof (state_chunk_step data b c0 s Hchunk Hc) as Hbal.
    assert (Hb : is_NaN b = false) by apply Hchunk.
    set (c1 := if num_gt b c0 then b else c0) in *.
    assert (Hnan1 : is_NaN c1 = false) by (unfold c1; destruct (num_gt b c0); auto).
    assert (H0 : num_le c0 c1 = true).
    { unfold c1. destruct (num_gt b c0) eqn:Hgt.
      - apply num_gt_le. exact Hgt.
      - apply num_le_refl. exact Hnan. }
    assert (H1 : num_le b c1 = true).
    { unfold c1. destruct (num_gt b c0) eqn:Hgt.
      - apply num_le_refl. exact Hb.
      - apply num_not_gt_le; assumption. }
    destruct (IH (on_data WALLET_NAME data s) c1 Hbal Hnan1)
      as (m & Hm & Hmn & Hin & Hmax).
    exists m. split; [exact Hm|]. split; [exact Hmn|].
    cbn [firstn]. split.
    + destruct Hin as [Heq|Hin].
      * subst m. unfold c1. destruct (num_gt b c0); cbn; auto.
      * cbn. auto.
    + intros x [<-|[<-|Hx]].
      * apply (num_le_trans _ c1); [exact H0|]. apply Hmax. now left.
      * apply (num_le_trans _ c1); [exact H1|]. apply Hmax. now left.
      * apply Hmax. now right.
Qed.

(** While every message fits in one call nothing closes the session, so
    every chunk is delivered. *)
Lemma small_state_chunks_all_delivered :
  forall (chunks : list (list N)) (balances : list number),
    Forall2 small_state_chunk chunks balances ->
    forall (s : State) (c0 : number),
      currentBalance s = VNum c0 ->
      destroyed (connection s) = false ->
      delivered_count WALLET_NAME chunks s = List.length chunks.
Proof.
  induction 1 as [|data b chunks balances Hchunk Hrest IH];
    intros s c0 Hc Hopen; [reflexivity|].
  cbn [delivered_count List.length]. rewrite Hopen. f_equal.
  apply (IH _ (if num_gt b c0 then b else c0)).
  - apply state_chunk_step; [|exact Hc].
    apply small_state_chunk_is_state_chunk. exact Hchunk.
  - rewrite (small_state_chunk_step data b c0 s Hchunk Hc). exact Hopen.
Qed.

(** C2. From a numeric initial balance, after any finite sequence of
    [state] messages the balance is the maximum of the initial balance and
    of the balances of the messages that reached the listener: it is one
    of them and none of them exceeds it.  Across each step of the
    sequence the balance does not decrease.  On an open connection, when
    the transactions of every message fit in one call, every message of
    the sequence reaches the listener. *)
Theorem balance_is_running_maximum :
  forall (chunks : list (list N)) (balances : list number)
         (s : State) (c0 : number),
    Forall2 state_chunk chunks balances ->
    currentBalance s = VNum c0 ->
    is_NaN c0 = false ->
    (exists m,
        currentBalance (deliver WALLET_NAME chunks s) = VNum m
        /\ In m (c0 :: firstn (delivered_count WALLET_NAME chunks s) balances)
        /\ (forall x,
              In x (c0 :: firstn (delivered_count WALLET_NAME chunks s) balances) ->
              num_le x m = true))
    /\ (forall pre data post,
          chunks = pre ++ data :: post ->
          exists x y,
            currentBalance (deliver WALLET_NAME pre s) = VNum x
            /\ currentBalance (deliver WALLET_NAME (pre ++ [data]) s) = VNum y
            /\ num_le x y = true)
    /\ (Forall2 small_state_chunk chunks balances ->
        destroyed (connection s) = false ->
        delivered_count WALLET_NAME chunks s = List.length chunks).
Proof.
  intros chunks balances s c0 Hall Hc Hnan. split; [|split].
  - destruct (deliver_state_chunks chunks balances Hall s c0 Hc Hnan)
      as (m & Hm & _ & Hin & Hmax).
    exists m. auto.
  - intros pre data post ->.
    apply Forall2_app_inv_l in Hall.
    destruct Hall as (bs1 & bs2 & Hpre & Hpost & _).
    inversion Hpost as [|? b ? bs2' Hdata _]; subst.
    destruct (deliver_state_chunks pre bs1 Hpre s c0 Hc Hnan)
      as (x & Hx & Hxn & _).
    rewrite deliver_app. cbn [deliver].
    destruct (destroyed (connection (deliver WALLET_NAME pre s))).
    + exists x, x. split; [exact Hx|]. split; [exact Hx|].
      apply num_le_refl. exact Hxn.
    + pose proof (state_chunk_step data b x _ Hdata Hx) as Hy.
      exists x, (if num_gt b x then b else x).
      split; [exact Hx|]. split; [exact Hy|].
      destruct (num_gt b x) eqn:Hgt.
      * apply num_gt_le. exact Hgt.
      * apply num_le_refl. exact Hxn.
  - intros Hsmall Hopen.
    apply (small_state_chunks_all_delivered chunks balances Hsmall s c0 Hc Hopen).
Qed.

End Listener.

(* ===================================================================== *)
(** * The listener on the sample chunks                                    *)
(* ===================================================================== *)






Lemma sample_state_chunk_a :
  @state_chunk Samples.sample_runtime Samples.text_state_a Samples.d0_5.
Proof.
  split; [reflexivity|].
  exists (Samples.state_msg Samples.d0_5
            [("transactions"%string, VArr [Samples.tx "a"])]),
         [Samples.tx "a"].
  split; [reflexivity|]. split; [reflexivity|].
  eexists. repeat split.
Defined.

Lemma sample_state_chunk_b :
  @state_chunk Samples.sample_runtime Samples.text_state_b Samples.d0_3.
Proof.
  split; [reflexivity|].
  exists (Samples.state_msg Samples.d0_3
            [("transactions"%string, VArr [Samples.tx "b"])]),
         [Samples.tx "b"].
  split; [reflexivity|]. split; [reflexivity|].
  eexists. repeat split.
Defined.

Lemma sample_small_state_chunk_a :
  @small_state_chunk Samples.sample_runtime Samples.text_state_a Samples.d0_5.
Proof.
  split; [reflexivity|].
  exists (Samples.state_msg Samples.d0_5
            [("transactions"%string, VArr [Samples.tx "a"])]),
         [Samples.tx "a"].
  split; [reflexivity|]. split; [|reflexivity]. split; [reflexivity|].
  eexists. repeat split.
Defined.

Lemma sample_small_state_chunk_b :
  @small_state_chunk Samples.sample_runtime Samples.text_state_b Samples.d0_3.
Proof.
  split; [reflexivity|].
  exists (Samples.state_msg Samples.d0_3
            [("transactions"%string, VArr [Samples.tx "b"])]),
         [Samples.tx "b"].
  split; [reflexivity|]. split; [|reflexivity]. split; [reflexivity|].
  eexists. repeat split.
Defined.

Lemma balance_is_running_maximum_witness :
  let chunks := [Samples.text_state_a; Samples.text_state_b] in
  let balances := [Samples.d0_5; Samples.d0_3] in
  (exists m,
      currentBalance
        (@deliver Samples.sample_runtime Samples.WALLET_NAME chunks Samples.fresh)
      = VNum m
      /\ In m (zero :: firstn
                         (@delivered_count Samples.sample_runtime
                            Samples.WALLET_NAME chunks Samples.fresh)
                         balances)
      /\ (forall x,
            In x (zero :: firstn
                            (@delivered_count Samples.sample_runtime
                               Samples.WALLET_NAME chunks Samples.fresh)
                            balances) ->
            num_le x m = true))
  /\ (forall pre data post,
        chunks = pre ++ data :: post ->
        exists x y,
          currentBalance
            (@deliver Samples.sample_runtime Samples.WALLET_NAME pre Samples.fresh)
          = VNum x
          /\ currentBalance
               (@deliver Samples.sample_runtime Samples.WALLET_NAME
                  (pre ++ [data]) Samples.fresh)
             = VNum y
          /\ num_le x y = true)
  /\ @delivered_count Samples.sample_runtime Samples.WALLET_NAME chunks
       Samples.fresh = 2.
Proof.
  destruct (@balance_is_running_maximum Samples.sample_runtime
              Samples.WALLET_NAME
              [Samples.text_state_a; Samples.text_state_b]
              [Samples.d0_5; Samples.d0_3] Samples.fresh zero)
    as (Hmax & Hstep & Hall).
  - constructor; [exact sample_state_chunk_a|].
    constructor; [exact sample_state_chunk_b|]. constructor.
  - reflexivity.
  - reflexivity.
  - split; [exact Hmax|]. split; [exact Hstep|].
    apply Hall; [|reflexivity].
    constructor; [exact sample_small_state_chunk_a|].
    constructor; [exact sample_small_state_chunk_b|]. constructor.
Defined.



Lemma malformed_threshold_closes_session_witness :
  let s := Samples.with_counter 3 Samples.fresh in
  malformedMessagesCount (Samples.listen Samples.text_garbage s) = 4
  /\ written (connection (Samples.listen Samples.text_garbage s))
     = written (connection s)
  /\ destroyed (connection (Samples.listen Samples.text_garbage s)) = true.
Proof.
  destruct (proj1 (proj2 (@malformed_threshold_closes_session
              Samples.sample_runtime Samples.WALLET_NAME
              Samples.text_garbage (Samples.with_counter 3 Samples.fresh)))
              eq_refl) as (Hc & Hw & _ & Hd).
  split; [exact Hc|]. split; [exact Hw|]. apply Hd. cbn. lia.
Defined.

Lemma transaction_appends_record_witness :
  transactionHistory (Samples.listen Samples.text_transaction_c Samples.fresh)
    = transactionHistory Samples.fresh ++ [Samples.record_c]
  /\ currentBalance (Samples.listen Samples.text_transaction_c Samples.fresh)
     = currentBalance Samples.fresh
  /\ connection (Samples.listen Samples.text_transaction_c Samples.fresh)
     = connection Samples.fresh
  /\ malformedMessagesCount
       (Samples.listen Samples.text_transaction_c Samples.fresh)
     = malformedMessagesCount Samples.fresh.
Proof.
  apply (@transaction_appends_record Samples.sample_runtime Samples.WALLET_NAME
           Samples.text_transaction_c
           (Samples.obj [("type"%string, Samples.str "transaction");
                         ("data"%string, Samples.record_c)])
           Samples.record_c Samples.fresh).
  - reflexivity.
  - split; reflexivity.
  - eexists. split; [reflexivity|].
    intros k [<-|[<-|[<-|[<-|[]]]]]; reflexivity.
Defined.

(** C7, as stated, fails on a parseable message without a discriminator:
    the empty object is not counted as malformed; the listener treats it
    as a message of unknown kind. *)
Lemma missing_discriminator_is_not_malformed :
  @parses_to Samples.sample_runtime Samples.text_empty_object (Samples.obj [])
  /\ Get (Samples.obj []) (lit "type") = inr VUndefined
  /\ @dispatch_throws Samples.sample_runtime Samples.WALLET_NAME
       Samples.text_empty_object Samples.fresh = false
  /\ malformedMessagesCount
       (Samples.listen Samples.text_empty_object Samples.fresh)
     = malformedMessagesCount Samples.fresh
  /\ console (Samples.listen Samples.text_empty_object Samples.fresh)
     = [Log_received_message (Samples.obj []); Warn_unknown_type VUndefined].
Proof. vm_compute. repeat split. Qed.

Lemma unrecognised_kind_is_accepted_witness :
  exists type,
    Get (Samples.obj []) (lit "type") = inr type
    /\ @dispatch_throws Samples.sample_runtime Samples.WALLET_NAME
         Samples.text_empty_object Samples.fresh = false
    /\ Samples.listen Samples.text_empty_object Samples.fresh
       = logged Samples.fresh
           [Log_received_message (Samples.obj []); Warn_unknown_type type].
Proof.
  apply (proj2 (proj2 (@unrecognised_kind_is_accepted
           Samples.sample_runtime Samples.WALLET_NAME
           Samples.text_empty_object Samples.fresh)
           (Samples.obj []) eq_refl eq_refl)).
  reflexivity.
Defined.

(** C10, as stated, fails when [transactions] is a string: a string is
    not an array, but it is iterable, so the spread does not throw; its
    characters are appended to the history and the chunk is not counted
    as malformed. *)
Lemma string_transactions_are_spread :
  let message := Samples.state_msg Samples.d0_5
                   [("transactions"%string, Samples.str "ab")] in
  let s' := Samples.listen Samples.text_state_string Samples.fresh in
  @parses_to Samples.sample_runtime Samples.text_state_string message
  /\ state_message message (VNum Samples.d0_5) (Samples.str "ab")
  /\ num_gt Samples.d0_5 zero = true
  /\ currentBalance s' = VNum Samples.d0_5
  /\ transactionHistory s' = [Samples.str "a"; Samples.str "b"]
  /\ transactionHistory s' <> transactionHistory Samples.fresh
  /\ malformedMessagesCount s' = malformedMessagesCount Samples.fresh
  /\ malformedMessagesCount s' <> S (malformedMessagesCount Samples.fresh).
Proof.
  cbv zeta. split; [reflexivity|].
  split; [split; [reflexivity | eexists; repeat split]|].
  vm_compute. repeat split; discriminate.
Qed.

Lemma state_merge_is_not_atomic_witness :
  let s' := Samples.listen Samples.text_state_no_transactions Samples.fresh in
  currentBalance s' = VNum Samples.d0_5
  /\ transactionHistory s' = transactionHistory Samples.fresh
  /\ @dispatch_throws Samples.sample_runtime Samples.WALLET_NAME
       Samples.text_state_no_transactions Samples.fresh = true
  /\ malformedMessagesCount s' = S (malformedMessagesCount Samples.fresh).
Proof.
  apply (@state_merge_is_not_atomic Samples.sample_runtime Samples.WALLET_NAME
           Samples.text_state_no_transactions
           (Samples.state_msg Samples.d0_5 [])
           (VNum Samples.d0_5) VUndefined Samples.fresh).
  - reflexivity.
  - split; [reflexivity|]. eexists. repeat split.
  - reflexivity.
  - reflexivity.
Defined.

(* ===================================================================== *)
(** * Propagating a transaction to the connections                         *)
(* ===================================================================== *)

Section Broadcast.
Context {rt : Runtime}.

Lemma broadcast_all_succeed (transaction : value) (conns : list Connection) :
  Forall (fun c => write_throws c = false) conns ->
  broadcastTransaction transaction conns
  = (map (delivered (JSON_stringify transaction)) conns, None).
Proof.
  induction 1 as [|c rest Hc _ IH]; [reflexivity|].
  cbn. unfold write. rewrite Hc, IH. reflexivity.
Qed.

Lemma broadcast_first_failure (transaction : value)
    (pre : list Connection) (c : Connection) (post : list Connection) :
  Forall (fun c => write_throws c = false) pre ->
  write_throws c = true ->
  broadcastTransaction transaction (pre ++ c :: post)
  = (map (delivered (JSON_stringify transaction)) pre ++ c :: post,
     Some (WriteError (conn_id c))).
Proof.
  intros Hpre Hc. induction Hpre as [|p pre Hp _ IH].
  - cbn. unfold write. rewrite Hc. reflexivity.
  - cbn. unfold write at 1. rewrite Hp.
    cbn in IH. rewrite IH. reflexivity.
Qed.

(** C4 (amended). The transaction is serialised and written to the
    connections one after the other.  When no write throws, every
    connection has received exactly that one message.  There is no
    handler around the single write: when the write to a connection
    throws, the connections before it have received the message, the
    failing connection and every connection after it have received
    nothing, and the exception is caught once by the handler of the whole
    workflow, which logs it.  No write is attempted twice. *)
Theorem broadcast_stops_at_first_failure :
  forall (transaction : value) (conns : list Connection),
    (Forall (fun c => write_throws c = false) conns ->
       broadcastTransaction transaction conns
       = (map (delivered (JSON_stringify transaction)) conns, None))
    /\ (forall pre c post out,
          conns = pre ++ c :: post ->
          Forall (fun c => write_throws c = false) pre ->
          write_throws c = true ->
          broadcastTransaction transaction conns
          = (map (delivered (JSON_stringify transaction)) pre ++ c :: post,
             Some (WriteError (conn_id c)))
          /\ propagate transaction conns out
             = (map (delivered (JSON_stringify transaction)) pre ++ c :: post,
                out ++ [Log_broadcasting transaction;
                        Error_main_flow (WriteError (conn_id c))])).
Proof.
  intros transaction conns. split.
  - apply broadcast_all_succeed.
  - intros pre c post out -> Hpre Hc.
    pose proof (broadcast_first_failure transaction pre c post Hpre Hc) as H.
    split; [exact H|]. unfold propagate. rewrite H. reflexivity.
Qed.

End Broadcast.

(** C4, as stated, fails as soon as a write throws before the last
    connection: with two connections of which the first one's write
    throws, the second, healthy connection receives nothing, and the only
    log entry for the failure is that of the workflow's handler. *)
Lemma broadcast_abandons_remaining_peers :
  let transaction := Samples.obj [("type"%string, Samples.str "transaction");
                                  ("data"%string, Samples.record_c)] in
  let conns := [Samples.peer 1 true; Samples.peer 2 false] in
  write_throws (Samples.peer 2 false) = false
  /\ @broadcastTransaction Samples.sample_runtime transaction conns
     = ([Samples.peer 1 true; Samples.peer 2 false], Some (WriteError 1))
  /\ map written
       (fst (@broadcastTransaction Samples.sample_runtime transaction conns))
     = [[]; []]
  /\ snd (@propagate Samples.sample_runtime transaction conns [])
     = [Log_broadcasting transaction; Error_main_flow (WriteError 1)].
Proof. vm_compute. repeat split. Qed.

Lemma broadcast_stops_at_first_failure_witness :
  let transaction := Samples.obj [("type"%string, Samples.str "transaction");
                                  ("data"%string, Samples.record_c)] in
  @broadcastTransaction Samples.sample_runtime transaction
    [Samples.peer 1 false; Samples.peer 2 false; Samples.peer 3 false]
  = (map (delivered (@JSON_stringify Samples.sample_runtime transaction))
       [Samples.peer 1 false; Samples.peer 2 false; Samples.peer 3 false],
     None).
Proof.
  apply (proj1 (@broadcast_stops_at_first_failure Samples.sample_runtime
                  (Samples.obj [("type"%string, Samples.str "transaction");
                                ("data"%string, Samples.record_c)])
                  [Samples.peer 1 false; Samples.peer 2 false;
                   Samples.peer 3 false])).
  repeat constructor.
Defined.

(* ===================================================================== *)
(** * retryWithBackoff                                                     *)
(* ===================================================================== *)

Section RetryFacts.
Import Retry.
Variables W V : Type.
Variable fn : W -> W * (exn + V).

Lemma after_shift (k : nat) (w : W) :
  after fn k (fst (fn w)) = after fn (S k) w.
Proof. induction k as [|k IH]; [reflexivity|]. cbn. rewrite IH. reflexivity. Qed.

Lemma result_shift (k : nat) (w : W) :
  result_of_call fn k (fst (fn w)) = result_of_call fn (S k) w.
Proof. unfold result_of_call. rewrite after_shift. reflexivity. Qed.

Lemma calls_app (a b : list event) : calls (a ++ b) = calls a + calls b.
Proof.
  induction a as [|[] a IH]; cbn; try rewrite IH; reflexivity.
Qed.

Lemma delays_app (a b : list event) : delays (a ++ b) = delays a ++ delays b.
Proof.
  induction a as [|[] a IH]; cbn; try rewrite IH; reflexivity.
Qed.

Lemma calls_failed_attempts (k : nat) (attempt delay : Z) :
  calls (failed_attempts k attempt delay) = k.
Proof.
  revert attempt delay. induction k as [|k IH]; intros; cbn; [|rewrite IH];
    reflexivity.
Qed.

Lemma delays_failed_attempts (k : nat) (attempt delay : Z) :
  delays (failed_attempts k attempt delay) = backoff k delay.
Proof.
  revert attempt delay. induction k as [|k IH]; intros; cbn; [|rewrite IH];
    reflexivity.
Qed.

Lemma backoff_nth (k : nat) (delay : Z) (i : nat) :
  i < k -> nth i (backoff k delay) 0%Z = (delay * 2 ^ Z.of_nat i)%Z.
Proof.
  revert delay i. induction k as [|k IH]; intros delay i Hi; [lia|].
  destruct i as [|i]; cbn [backoff nth].
  - change (Z.of_nat 0) with 0%Z. lia.
  - rewrite IH by lia. rewrite Nat2Z.inj_succ, Z.pow_succ_r by lia. lia.
Qed.

Lemma backoff_length (k : nat) (delay : Z) : List.length (backoff k delay) = k.
Proof.
  revert delay. induction k as [|k IH]; intros; cbn; [|rewrite IH]; reflexivity.
Qed.

(** [k] failures, then a success, with attempts to spare: the loop
    returns the value of call [k + 1] after exactly [k + 1] calls. *)
Lemma loop_first_success :
  forall (k fuel : nat) (attempt retries delay : Z) (w : W)
         (tr : list event) (v : V),
    (forall j, j < k -> exists e, result_of_call fn j w = inl e) ->
    result_of_call fn k w = inr v ->
    (attempt + Z.of_nat k <= retries)%Z ->
    k < fuel ->
    loop fn fuel attempt retries delay w tr
    = Some (after fn (S k) w,
            tr ++ failed_attempts k attempt delay ++ [Called],
            Resolved v).
Proof.
  induction k as [|k IH]; intros fuel attempt retries delay w tr v Hfail Hok Hle Hfuel.
  - destruct fuel as [|fuel]; [lia|]. cbn [loop].
    replace (attempt <=? retries)%Z with true by (symmetry; apply Z.leb_le; lia).
    unfold result_of_call in Hok. cbn in Hok. cbn [after].
    destruct (fn w) as [w' r]. cbn in Hok. subst r. reflexivity.
  - destruct fuel as [|fuel]; [lia|]. cbn [loop].
    replace (attempt <=? retries)%Z with true by (symmetry; apply Z.leb_le; lia).
    destruct (Hfail 0) as [e He]; [lia|].
    unfold result_of_call in He. cbn in He.
    pose proof (result_shift k w) as Hs.
    assert (Hf' : forall j, j < k ->
              exists e, result_of_call fn j (fst (fn w)) = inl e).
    { intros j Hj. rewrite result_shift. apply Hfail. lia. }
    pose proof (after_shift (S k) w) as Ha.
    destruct (fn w) as [w' r]. cbn [fst snd] in He, Hs, Hf', Ha. subst r.
    replace (attempt =? retries)%Z with false by (symmetry; apply Z.eqb_neq; lia).
    rewrite (IH fuel (attempt + 1)%Z retries (delay * 2)%Z w' _ v Hf').
    + cbn [failed_attempts]. rewrite Ha. rewrite <- !app_assoc. reflexivity.
    + rewrite Hs. exact Hok.
    + lia.
    + lia.
Qed.

(** Every remaining attempt fails: the loop rejects with the error of the
    last one. *)
Lemma loop_all_fail :
  forall (k fuel : nat) (attempt retries delay : Z) (w : W)
         (tr : list event) (e : exn),
    (forall j, j < k -> exists e', result_of_call fn j w = inl e') ->
    result_of_call fn k w = inl e ->
    (attempt + Z.of_nat k = retries)%Z ->
    k < fuel ->
    loop fn fuel attempt retries delay w tr
    = Some (after fn (S k) w,
            tr ++ failed_attempts k attempt delay ++ [Called],
            Rejected e).
Proof.
  induction k as [|k IH]; intros fuel attempt retries delay w tr e Hfail Hlast Hle Hfuel.
  - destruct fuel as [|fuel]; [lia|]. cbn [loop].
    replace (attempt <=? retries)%Z with true by (symmetry; apply Z.leb_le; lia).
    unfold result_of_call in Hlast. cbn in Hlast. cbn [after].
    destruct (fn w) as [w' r]. cbn in Hlast. subst r.
    replace (attempt =? retries)%Z with true by (symmetry; apply Z.eqb_eq; lia).
    reflexivity.
  - destruct fuel as [|fuel]; [lia|]. cbn [loop].
    replace (attempt <=? retries)%Z with true by (symmetry; apply Z.leb_le; lia).
    destruct (Hfail 0) as [e0 He]; [lia|].
    unfold result_of_call in He. cbn in He.
    pose proof (result_shift k w) as Hs.
    assert (Hf' : forall j, j < k ->
              exists e', result_of_call fn j (fst (fn w)) = inl e').
    { intros j Hj. rewrite result_shift. apply Hfail. lia. }
    pose proof (after_shift (S k) w) as Ha.
    destruct (fn w) as [w' r]. cbn [fst snd] in He, Hs, Hf', Ha. subst r.
    replace (attempt =? retries)%Z with false by (symmetry; apply Z.eqb_neq; lia).
    rewrite (IH fuel (attempt + 1)%Z retries (delay * 2)%Z w' _ e Hf').
    + cbn [failed_attempts]. rewrite Ha. rewrite <- !app_assoc. reflexivity.
    + rewrite Hs. exact Hlast.
    + lia.
    + lia.
Qed.

(** Either some call among the first [n] succeeds, or they all fail. *)
Lemma first_success_or_all_fail (n : nat) (w : W) :
  (exists k v, k < n
     /\ (forall j, j < k -> exists e, result_of_call fn j w = inl e)
     /\ result_of_call fn k w = inr v)
  \/ (forall j, j < n -> exists e, result_of_call fn j w = inl e).
Proof.
  induction n as [|n IH].
  - right. intros j Hj. lia.
  - destruct IH as [(k & v & Hk & Hf & Hv)|Hall].
    + left. exists k, v. repeat split; auto.
    + destruct (result_of_call fn n w) as [e|v] eqn:Hn.
      * right. intros j Hj.
        destruct (Nat.eq_dec j n) as [->|]; [eauto|apply Hall; lia].
      * left. exists n, v. repeat split; auto.
Qed.

(** C8. With the default parameters: if call number [k + 1 <= 5] is the
    first to succeed, its value is returned after exactly [k + 1] calls,
    having waited 500, 1000, ... milliseconds (doubling) after each of the
    [k] failures; if the five calls fail, the error of the fifth
    propagates after the delays 500, 1000, 2000, 4000.  In every case the
    function returns, [fn] is called at most five times and the delay
    after failure number [i + 1] is 500 * 2^i. *)
Theorem retryWithBackoff_default_behaviour :
  forall (w : W),
    (forall k v,
        k < 5 ->
        (forall j, j < k -> exists e, result_of_call fn j w = inl e) ->
        result_of_call fn k w = inr v ->
        exists tr,
          retryWithBackoff_default fn w
            = Some (after fn (S k) w, tr, Resolved v)
          /\ calls tr = S k
          /\ delays tr = firstn k [500; 1000; 2000; 4000]%Z)
    /\ (forall e,
          (forall j, j < 4 -> exists e', result_of_call fn j w = inl e') ->
          result_of_call fn 4 w = inl e ->
          exists tr,
            retryWithBackoff_default fn w
              = Some (after fn 5 w, tr, Rejected e)
            /\ calls tr = 5
            /\ delays tr = [500; 1000; 2000; 4000]%Z)
    /\ (exists w' tr o,
          retryWithBackoff_default fn w = Some (w', tr, o)
          /\ calls tr <= 5
          /\ forall i, i < List.length (delays tr) ->
               nth i (delays tr) 0%Z = (500 * 2 ^ Z.of_nat i)%Z).
Proof.
  intros w.
  assert (Hsucc : forall k v,
    k < 5 ->
    (forall j, j < k -> exists e, result_of_call fn j w = inl e) ->
    result_of_call fn k w = inr v ->
    retryWithBackoff_default fn w
    = Some (after fn (S k) w, failed_attempts k 1 500 ++ [Called], Resolved v)).
  { intros k v Hk Hf Hv. unfold retryWithBackoff_default, retryWithBackoff.
    rewrite (loop_first_success k _ 1 MAX_RETRIES 500 w [] v Hf Hv).
    - reflexivity.
    - unfold MAX_RETRIES. lia.
    - unfold MAX_RETRIES. cbn. lia. }
  assert (Hfail : forall e,
    (forall j, j < 4 -> exists e', result_of_call fn j w = inl e') ->
    result_of_call fn 4 w = inl e ->
    retryWithBackoff_default fn w
    = Some (after fn 5 w, failed_attempts 4 1 500 ++ [Called], Rejected e)).
  { intros e Hf He. unfold retryWithBackoff_default, retryWithBackoff.
    rewrite (loop_all_fail 4 _ 1 MAX_RETRIES 500 w [] e Hf He).
    - reflexivity.
    - reflexivity.
    - unfold MAX_RETRIES. cbn. lia. }
  assert (Htrace : forall k, k < 5 ->
    calls (failed_attempts k 1 500 ++ [Called]) = S k
    /\ delays (failed_attempts k 1 500 ++ [Called]) = backoff k 500
    /\ backoff k 500 = firstn k [500; 1000; 2000; 4000]%Z).
  { intros k Hk. rewrite calls_app, delays_app, calls_failed_attempts,
      delays_failed_attempts. cbn [calls delays]. rewrite app_nil_r.
    repeat split; [lia|].
    do 5 (destruct k as [|k]; [reflexivity|]). lia. }
  split.
  { intros k v Hk Hf Hv. eexists. split; [apply Hsucc; assumption|].
    destruct (Htrace k Hk) as (Hc & Hd & Hb). rewrite Hd, Hb. auto. }
  split.
  { intros e Hf He. eexists. split; [apply Hfail; assumption|].
    destruct (Htrace 4) as (Hc & Hd & Hb); [lia|]. rewrite Hd, Hb. auto. }
  destruct (first_success_or_all_fail 5 w) as [(k & v & Hk & Hf & Hv)|Hall].
  - do 3 eexists. split; [apply Hsucc; eassumption|].
    destruct (Htrace k Hk) as (Hc & Hd & _). rewrite Hc, Hd.
    split; [lia|]. intros i Hi. rewrite backoff_length in Hi.
    apply backoff_nth. exact Hi.
  - destruct (Hall 4) as [e He]; [lia|].
    do 3 eexists. split; [apply Hfail; [intros j Hj; apply Hall; lia|exact He]|].
    destruct (Htrace 4) as (Hc & Hd & _); [lia|]. rewrite Hc, Hd.
    split; [lia|]. intros i Hi. rewrite backoff_length in Hi.
    apply backoff_nth. exact Hi.
Qed.

End RetryFacts.

Lemma retryWithBackoff_default_behaviour_witness :
  exists tr,
    Retry.retryWithBackoff_default Samples.flaky 0
      = Some (Retry.after Samples.flaky 3 0, tr, Retry.Resolved 2)
    /\ Retry.calls tr = 3
    /\ Retry.delays tr = firstn 2 [500; 1000; 2000; 4000]%Z.
Proof.
  apply (proj1 (retryWithBackoff_default_behaviour nat nat Samples.flaky 0) 2 2).
  - lia.
  - intros [|[|j]] Hj; [eexists; reflexivity | eexists; reflexivity | lia].
  - reflexivity.
Defined.

(* ===================================================================== *)
(** * sendBitcoin                                                          *)
(* ===================================================================== *)

Section WalletFacts.
Import Wallet.
Variable node : Wallet.State -> list value -> exn + value.

(** A number that is not greater than zero is NaN or at most zero. *)
Lemma not_positive_rejected (amount : number) :
  num_gt amount zero = false -> is_NaN amount || num_le amount zero = true.
Proof. destruct amount as [[]|[]| |[] m e]; cbn; congruence. Qed.

Lemma not_non_empty_rejected (walletName : value) :
  ~ non_empty_string walletName ->
  exists msg, validateWalletName walletName = inl (Error msg).
Proof.
  intros H. destruct walletName as [| | | |[|c s]| |]; cbn; eauto.
  exfalso. apply H. exists c, s. reflexivity.
Qed.

(** The outcome of the [catch] block of [sendBitcoin]: it rethrows, or
    throws while formatting its own message; it issues no command. *)
Lemma sendBitcoin_handler_throws (walletName : value) (error : exn) (s : State) :
  exists e s',
    (template [walletName] ;;
     console_log (Error_sending walletName error) ;;
     (throw error : M State value))%eff s = (s', inl e)
    /\ issued s' = issued s
    /\ client_wallet s' = client_wallet s.
Proof.
  unfold template, bind, console_log, modify, throw, ret. cbn.
  destruct (ToString_throws walletName); cbn; eauto.
Qed.

(** C9. When the amount is not a positive number (NaN, zero or negative)
    or the wallet name is not a non-empty string, [sendBitcoin] throws:
    no transaction id is returned, no RPC command is issued and the
    client's wallet is not switched. *)
Theorem sendBitcoin_rejects_invalid_arguments :
  forall (walletName recipientAddress : value) (amount : number) (s : State),
    ~ positive_number amount \/ ~ non_empty_string walletName ->
    exists e s',
      sendBitcoin node walletName recipientAddress amount s = (s', inl e)
      /\ issued s' = issued s
      /\ client_wallet s' = client_wallet s.
Proof.
  intros walletName recipientAddress amount s H.
  unfold sendBitcoin, try_catch.
  unfold bind at 1. unfold lift at 1.
  destruct (validateWalletName walletName) as [e1|[]] eqn:Hname.
  { apply sendBitcoin_handler_throws. }
  unfold bind at 1. unfold lift at 1.
  destruct (validateAmount amount) as [e2|[]] eqn:Hamount.
  { apply sendBitcoin_handler_throws. }
  exfalso. destruct H as [H|H].
  - unfold positive_number in H. apply not_true_is_false in H.
    apply not_positive_rejected in H.
    unfold validateAmount in Hamount. rewrite H in Hamount. discriminate.
  - destruct (not_non_empty_rejected walletName H) as [msg Hm]. congruence.
Qed.

End WalletFacts.

Lemma sendBitcoin_rejects_invalid_arguments_witness :
  exists e s',
    Wallet.sendBitcoin Samples.accepting_node
      (Samples.str "mywallet") (Samples.str "bcrt1qexample") zero
      Samples.idle_client = (s', inl e)
    /\ Wallet.issued s' = Wallet.issued Samples.idle_client
    /\ Wallet.client_wallet s' = Wallet.client_wallet Samples.idle_client.
Proof.
  apply (sendBitcoin_rejects_invalid_arguments Samples.accepting_node
           (Samples.str "mywallet") (Samples.str "bcrt1qexample") zero
           Samples.idle_client).
  left. unfold positive_number. vm_compute. discriminate.
Defined.

(** A valid call, for contrast: the command is issued and its answer is
    returned. *)
Example sendBitcoin_valid_call :
  let r := Wallet.sendBitcoin Samples.accepting_node
             (Samples.str "mywallet") (Samples.str "bcrt1qexample")
             Samples.d0_1 Samples.idle_client in
  snd r = inr (Samples.str "txid-1")
  /\ Wallet.issued (fst r)
     = [[Samples.str "sendtoaddress"; Samples.str "bcrt1qexample";
         VNum Samples.d0_1]]
  /\ Wallet.client_wallet (fst r) = Samples.str "mywallet".
Proof. vm_compute. repeat split. Qed.

(* ===================================================================== *)
(** * Further properties of the listener and of a session                  *)
(* ===================================================================== *)

Lemma str_eqb_eq (a b : jsstring) : str_eqb a b = true -> a = b.
Proof.
  revert b. induction a as [|x a IH]; intros [|y b] H; cbn in H;
    try discriminate; [reflexivity|].
  apply andb_true_iff in H. destruct H as [Hx Hab].
  apply N.eqb_eq in Hx. subst y. f_equal. apply IH. exact Hab.
Qed.

Lemma strict_eq_lit_eq (v : value) (kind : string) :
  strict_eq_lit v kind = true -> v = VStr (lit kind).
Proof.
  destruct v; cbn; try discriminate.
  intros H. f_equal. apply str_eqb_eq. exact H.
Qed.

Section ListenerInvariants.
Context {rt : Runtime}.
Variable WALLET_NAME : jsstring.

Arguments lit : simpl never.
Arguments strict_eq_lit : simpl never.
Arguments Nat.ltb : simpl never.

Ltac unfold_listener :=
  unfold Peer.dispatch, template, broadcastState, connection_write, write;
  unfold transactionHistory_push_spread;
  unfold bind, lift, read, ret, throw, console_log, set_currentBalance,
    transactionHistory_push, modify.

Ltac innermost_cases :=
  repeat (match goal with
          | |- context [match ?x with _ => _ end] =>
              lazymatch x with
              | context [match _ with _ => _ end] => fail
              | _ => destruct x eqn:?
              end
          end; cbn).

(** The [try] block only ever appends to the history. *)
Lemma dispatch_appends (data : list N) (s : State) :
  exists items,
    transactionHistory (fst (dispatch WALLET_NAME data s))
    = transactionHistory s ++ items.
Proof.
  unfold_listener. cbn. innermost_cases;
    first [ exists []; rewrite app_nil_r; reflexivity
          | eexists; reflexivity ].
Qed.

Lemma on_data_appends (data : list N) (s : State) :
  exists items,
    transactionHistory (on_data WALLET_NAME data s)
    = transactionHistory s ++ items.
Proof.
  rewrite on_data_unfold.
  destruct (dispatch_appends data s) as [items H].
  exists items. destruct (snd (dispatch WALLET_NAME data s)); [|exact H].
  destruct (on_error_effect e (fst (dispatch WALLET_NAME data s))) as (Hv & _).
  unfold view in Hv. inversion Hv as [[Hb Hh]]. rewrite Hh. exact H.
Qed.

(** X1. Whatever bytes a peer sends, well-formed or not, the listener
    never removes or reorders entries of [transactionHistory]: after one
    chunk, and after any sequence of chunks, the earlier history is a
    prefix of the later one. *)
Theorem history_is_append_only :
  forall (chunks : list (list N)) (s : State),
    exists items,
      transactionHistory (deliver WALLET_NAME chunks s)
      = transactionHistory s ++ items.
Proof.
  induction chunks as [|data rest IH]; intros s.
  - exists []. cbn. rewrite app_nil_r. reflexivity.
  - cbn. destruct (destroyed (connection s)).
    + exists []. rewrite app_nil_r. reflexivity.
    + destruct (on_data_appends data s) as [i1 H1].
      destruct (IH (on_data WALLET_NAME data s)) as [i2 H2].
      exists (i1 ++ i2). rewrite H2, H1, app_assoc. reflexivity.
Qed.

(** The [try] block writes to the peer only in the [state-request]
    branch, and then the serialised current state. *)
Lemma dispatch_writes (data : list N) (s : State) :
  connection (fst (dispatch WALLET_NAME data s)) = connection s
  \/ exists message,
       parses_to data message
       /\ has_kind message "state-request"
       /\ write_throws (connection s) = false
       /\ connection (fst (dispatch WALLET_NAME data s))
          = delivered (JSON_stringify (walletState WALLET_NAME s))
              (connection s).
Proof.
  unfold parses_to, has_kind.
  unfold_listener. cbn.
  destruct (JSON_parse (Buffer_toString data)) as [message|] eqn:Hp; cbn;
    [|left; reflexivity].
  destruct (Get message (lit "type")) as [e|type] eqn:Hg; cbn;
    [left; reflexivity|].
  destruct (strict_eq_lit type "transaction") eqn:H1.
  { left. cbn. innermost_cases; reflexivity. }
  destruct (strict_eq_lit type "state-request") eqn:H2.
  { apply strict_eq_lit_eq in H2. subst type. cbn.
    destruct (write_throws (connection s)) eqn:Hw; cbn; [left; reflexivity|].
    right. exists message. repeat split; try assumption; reflexivity. }
  left. cbn. innermost_cases; reflexivity.
Qed.

(** X2. The listener writes to its peer only in reply to a
    [state-request]: on any other chunk nothing is sent, and the reply is
    one message, the serialisation of the balance and history as they are
    when the request is handled. *)
Theorem listener_writes_only_state_replies :
  forall (data : list N) (s : State),
    written (connection (on_data WALLET_NAME data s)) = written (connection s)
    \/ exists message,
         parses_to data message
         /\ has_kind message "state-request"
         /\ written (connection (on_data WALLET_NAME data s))
            = written (connection s)
              ++ [JSON_stringify (walletState WALLET_NAME s)].
Proof.
  intros data s.
  destruct (dispatch_throws WALLET_NAME data s) eqn:Ht.
  - left. destruct (on_data_after_throw WALLET_NAME data s Ht) as (_ & Hc).
    rewrite Hc. destruct (3 <? S (malformedMessagesCount s)); reflexivity.
  - rewrite (on_data_after_return WALLET_NAME data s Ht).
    destruct (dispatch_writes data s) as [Hc|(message & Hp & Hk & _ & Hc)];
      rewrite Hc.
    + left. reflexivity.
    + right. exists message. repeat split; assumption.
Qed.

(** The [try] block assigns the balance only in the [state] branch, after
    the comparison with the local balance came out true. *)
Lemma dispatch_balance (data : list N) (s : State) :
  currentBalance (fst (dispatch WALLET_NAME data s)) = currentBalance s
  \/ exists message d,
       parses_to data message
       /\ has_kind message "state"
       /\ Get message (lit "data") = inr d
       /\ Get d (lit "balance")
          = inr (currentBalance (fst (dispatch WALLET_NAME data s)))
       /\ gt (currentBalance (fst (dispatch WALLET_NAME data s)))
            (currentBalance s) = inr true.
Proof.
  unfold parses_to, has_kind.
  unfold_listener. cbn.
  destruct (JSON_parse (Buffer_toString data)) as [message|] eqn:Hp; cbn;
    [|left; reflexivity].
  destruct (Get message (lit "type")) as [e|type] eqn:Hg; cbn;
    [left; reflexivity|].
  destruct (strict_eq_lit type "transaction") eqn:H1.
  { left. cbn. innermost_cases; reflexivity. }
  destruct (strict_eq_lit type "state-request") eqn:H2.
  { left. cbn. innermost_cases; reflexivity. }
  destruct (strict_eq_lit type "state") eqn:H3; [|left; reflexivity].
  apply strict_eq_lit_eq in H3. subst type.
  destruct (Get message (lit "data")) as [e|d] eqn:Hd; cbn;
    [left; reflexivity|].
  destruct (Get d (lit "balance")) as [e|balance] eqn:Hb; cbn;
    [left; reflexivity|].
  destruct (gt balance (currentBalance s)) as [e|[]] eqn:Hgt; cbn;
    try (left; reflexivity).
  right. exists message, d.
  innermost_cases; repeat split; try assumption; try reflexivity.
Qed.

(** X3. Whatever chunk arrives, the balance is either left as it is or
    replaced by the balance of a [state] message that compared greater
    than it; in particular a numeric balance is never replaced by a
    smaller or equal number, whether the chunk is well-formed or not. *)
Theorem balance_changes_only_by_greater_state :
  forall (data : list N) (s : State),
    (currentBalance (on_data WALLET_NAME data s) = currentBalance s
     \/ exists message d,
          parses_to data message
          /\ has_kind message "state"
          /\ Get message (lit "data") = inr d
          /\ Get d (lit "balance")
             = inr (currentBalance (on_data WALLET_NAME data s))
          /\ gt (currentBalance (on_data WALLET_NAME data s))
               (currentBalance s) = inr true)
    /\ (forall c c',
          currentBalance s = VNum c ->
          currentBalance (on_data WALLET_NAME data s) = VNum c' ->
          c' = c \/ num_gt c' c = true).
Proof.
  intros data s.
  assert (Hbal : currentBalance (on_data WALLET_NAME data s)
                 = currentBalance (fst (dispatch WALLET_NAME data s))).
  { rewrite on_data_unfold.
    destruct (snd (dispatch WALLET_NAME data s)); [|reflexivity].
    destruct (on_error_effect e (fst (dispatch WALLET_NAME data s))) as (Hv & _).
    unfold view in Hv. inversion Hv as [[Hb Hh]]. reflexivity. }
  assert (H : currentBalance (on_data WALLET_NAME data s) = currentBalance s
     \/ exists message d,
          parses_to data message
          /\ has_kind message "state"
          /\ Get message (lit "data") = inr d
          /\ Get d (lit "balance")
             = inr (currentBalance (on_data WALLET_NAME data s))
          /\ gt (currentBalance (on_data WALLET_NAME data s))
               (currentBalance s) = inr true).
  { rewrite Hbal. apply dispatch_balance. }
  split; [exact H|].
  intros c c' Hc Hc'.
  destruct H as [H|(message & d & _ & _ & _ & _ & Hgt)].
  - left. congruence.
  - right. rewrite Hc, Hc' in Hgt. cbn in Hgt. congruence.
Qed.

(** A session that is open with at most three malformed chunks counted
    keeps its counter at most 4 and is destroyed exactly when the counter
    is 4. *)
Lemma deliver_counter_invariant :
  forall (chunks : list (list N)) (s : State),
    destroyed (connection s) = false ->
    malformedMessagesCount s <= 3 ->
    malformedMessagesCount (deliver WALLET_NAME chunks s) <= 4
    /\ (destroyed (connection (deliver WALLET_NAME chunks s)) = true
        <-> malformedMessagesCount (deliver WALLET_NAME chunks s) = 4).
Proof.
  induction chunks as [|data rest IH]; intros s Hopen Hle.
  - cbn. split; [lia|]. rewrite Hopen. split; [discriminate|lia].
  - cbn [deliver]. rewrite Hopen.
    destruct (dispatch_throws WALLET_NAME data s) eqn:Ht.
    + destruct (on_data_after_throw WALLET_NAME data s Ht) as (Hc & Hconn).
      destruct (3 <? S (malformedMessagesCount s)) eqn:Hlt.
      * apply Nat.ltb_lt in Hlt.
        rewrite deliver_destroyed by (rewrite Hconn; reflexivity).
        rewrite Hc, Hconn. cbn. split; [lia|]. split; [lia|reflexivity].
      * apply Nat.ltb_ge in Hlt. apply IH.
        -- rewrite Hconn. exact Hopen.
        -- rewrite Hc. exact Hlt.
    + rewrite (on_data_after_return WALLET_NAME data s Ht).
      destruct (dispatch_frame WALLET_NAME data s) as (Hc & Hd & _).
      apply IH.
      * rewrite Hd. exact Hopen.
      * rewrite Hc. exact Hle.
Qed.

(** [handlePeerConnection] starts the counter at zero and leaves the
    connection open or destroyed as it received it, whether or not the
    initial push throws. *)
Lemma handlePeerConnection_start
    (balance : value) (history : list value) (out : list log_entry)
    (conn : Connection) :
  malformedMessagesCount
    (fst (handlePeerConnection WALLET_NAME balance history out conn)) = 0
  /\ destroyed
       (connection (fst (handlePeerConnection WALLET_NAME balance history out conn)))
     = destroyed conn
  /\ view (fst (handlePeerConnection WALLET_NAME balance history out conn))
     = (balance, history).
Proof.
  unfold handlePeerConnection, view. unfold_listener. cbn.
  destruct (write_throws conn); cbn; repeat split.
Qed.

(** X4. In every session [handlePeerConnection] opens on a live
    connection, whatever chunks the peer sends, the malformed counter
    never exceeds 4, and the connection is destroyed exactly when the
    counter has reached 4. *)
Theorem session_counter_is_bounded :
  forall (balance : value) (history : list value) (out : list log_entry)
         (conn : Connection) (chunks : list (list N)),
    destroyed conn = false ->
    malformedMessagesCount
      (deliver WALLET_NAME chunks
         (fst (handlePeerConnection WALLET_NAME balance history out conn)))
    <= 4
    /\ (destroyed
          (connection
             (deliver WALLET_NAME chunks
                (fst (handlePeerConnection WALLET_NAME balance history out conn))))
        = true
        <-> malformedMessagesCount
              (deliver WALLET_NAME chunks
                 (fst (handlePeerConnection WALLET_NAME balance history out conn)))
            = 4).
Proof.
  intros balance history out conn chunks Hopen.
  destruct (handlePeerConnection_start balance history out conn)
    as (Hc & Hd & _).
  apply deliver_counter_invariant.
  - rewrite Hd. exact Hopen.
  - rewrite Hc. lia.
Qed.

(** X5. Delivering the same [state] message a second time changes
    nothing: once applied (or ignored), the message no longer compares
    greater than the local balance, so its transactions are not appended
    again. *)
Theorem state_message_redelivery_is_noop :
  forall (data : list N) (b c : number) (s : State),
    state_chunk data b ->
    currentBalance s = VNum c ->
    view (on_data WALLET_NAME data (on_data WALLET_NAME data s))
    = view (on_data WALLET_NAME data s).
Proof.
  intros data b c s Hchunk Hc.
  pose proof (state_chunk_step WALLET_NAME data b c s Hchunk Hc) as Hbal.
  destruct Hchunk as (Hb & message & transactions & Hp & Hm).
  apply (state_message_not_greater WALLET_NAME data message (VNum b)
           (VArr transactions) (on_data WALLET_NAME data s) Hp Hm).
  rewrite Hbal. cbn. f_equal.
  destruct (num_gt b c) eqn:Hgt; [|exact Hgt].
  apply num_le_not_gt. apply num_le_refl. exact Hb.
Qed.

End ListenerInvariants.

Section Exchange.
Context {rt : Runtime}.

(** The object [broadcastState] serialises is a [state] message for the
    listener, carrying the sender's balance and whole history. *)
Lemma walletState_is_state_message (name : jsstring) (s : State) :
  state_message (walletState name s) (currentBalance s)
    (VArr (transactionHistory s)).
Proof.
  split; [reflexivity|]. eexists. repeat split.
Qed.

(** X6. Two peers that connect push their states to each other.  When
    both opening pushes went through (so both listeners are installed),
    each receives what the other serialised, and either history fits in
    one call: the peer with the smaller balance takes the other's balance
    and appends the other's whole history to its own; the peer with the
    larger balance changes nothing; with equal balances neither changes.
    Afterwards the two balances compare equal. *)
Theorem state_exchange_agrees_on_balance :
  forall (nameA nameB : jsstring) (a b : number) (hA hB : list value)
         (outA outB : list log_entry) (connA connB : Connection)
         (dA dB : list N),
    is_NaN a = false -> is_NaN b = false ->
    destroyed connA = false -> destroyed connB = false ->
    snd (handlePeerConnection nameA (VNum a) hA outA connA) = inr tt ->
    snd (handlePeerConnection nameB (VNum b) hB outB connB) = inr tt ->
    fits_one_call hA = true -> fits_one_call hB = true ->
    parses_to dA
      (walletState nameA
         (fst (handlePeerConnection nameA (VNum a) hA outA connA))) ->
    parses_to dB
      (walletState nameB
         (fst (handlePeerConnection nameB (VNum b) hB outB connB))) ->
    view (deliver nameA [dB]
            (fst (handlePeerConnection nameA (VNum a) hA outA connA)))
    = (if num_gt b a then (VNum b, hA ++ hB) else (VNum a, hA))
    /\ view (deliver nameB [dA]
               (fst (handlePeerConnection nameB (VNum b) hB outB connB)))
       = (if num_gt a b then (VNum a, hB ++ hA) else (VNum b, hB))
    /\ num_le (if num_gt b a then b else a) (if num_gt a b then a else b) = true
    /\ num_le (if num_gt a b then a else b) (if num_gt b a then b else a) = true.
Proof.
  intros nameA nameB a b hA hB outA outB connA connB dA dB
         Ha Hb HoA HoB HpushA HpushB HfA HfB HpA HpB.
  assert (Hside : forall name other x y hx hy out conn d,
    fits_one_call hy = true ->
    parses_to d
      (walletState other
         (fst (handlePeerConnection other (VNum y) hy out conn))) ->
    forall out' conn',
    destroyed conn' = false ->
    view (deliver name [d]
            (fst (handlePeerConnection name (VNum x) hx out' conn')))
    = (if num_gt y x then (VNum y, hx ++ hy) else (VNum x, hx))).
  { intros name other x y hx hy out conn d Hfit Hp out' conn' Ho'.
    destruct (handlePeerConnection_start other (VNum y) hy out conn)
      as (_ & _ & Hv).
    destruct (handlePeerConnection_start name (VNum x) hx out' conn')
      as (_ & Hd' & Hv').
    set (so := fst (handlePeerConnection other (VNum y) hy out conn)) in *.
    set (sn := fst (handlePeerConnection name (VNum x) hx out' conn')) in *.
    pose proof (walletState_is_state_message other so) as Hm.
    unfold view in Hv, Hv'. inversion Hv as [[Hvb Hvh]].
    inversion Hv' as [[Hvb' Hvh']].
    rewrite Hvb, Hvh in Hm.
    cbn [deliver]. rewrite Hd', Ho'.
    destruct (num_gt y x) eqn:Hgt.
    - destruct (state_message_greater name d _ _ _ sn Hp Hm) as (H1 & H2).
      + rewrite Hvb'. cbn. now rewrite Hgt.
      + rewrite spreadable_array, Hfit in H2. destruct H2 as (H2 & _).
        unfold view.
        rewrite H1, H2, Hvh'. rewrite ?Hvb, ?Hvh. reflexivity.
    - destruct (state_message_not_greater name d _ _ _ sn Hp Hm) as (H1 & _).
      + rewrite Hvb'. cbn. now rewrite Hgt.
      + rewrite H1. unfold view. rewrite Hvb', Hvh'. rewrite ?Hvb, ?Hvh.
        reflexivity. }
  split; [apply (Hside nameA nameB a b hA hB outB connB dB HfB HpB outA connA HoA)|].
  split; [apply (Hside nameB nameA b a hB hA outA connA dA HfA HpA outB connB HoB)|].
  destruct (num_gt b a) eqn:Hba, (num_gt a b) eqn:Hab.
  - apply num_gt_le in Hba. apply num_le_not_gt in Hba. congruence.
  - split; apply num_le_refl; exact Hb.
  - split; apply num_le_refl; exact Ha.
  - split; apply num_not_gt_le; assumption.
Qed.

End Exchange.

(* ===================================================================== *)
(** * retryWithBackoff with any parameters; verifyTransaction              *)
(* ===================================================================== *)

Lemma backoff_sum (k : nat) (delay : Z) :
  fold_right Z.add 0%Z (backoff k delay) = (delay * (2 ^ Z.of_nat k - 1))%Z.
Proof.
  revert delay. induction k as [|k IH]; intros delay.
  - cbn. lia.
  - cbn [backoff fold_right]. rewrite IH.
    rewrite Nat2Z.inj_succ, Z.pow_succ_r by lia. lia.
Qed.

Section RetryGeneral.
Import Retry.
Variables W V : Type.
Variable fn : W -> W * (exn + V).

Lemma trace_of_attempts (k : nat) (delay : Z) :
  calls (failed_attempts k 1 delay ++ [Called]) = S k
  /\ delays (failed_attempts k 1 delay ++ [Called]) = backoff k delay.
Proof.
  rewrite calls_app, delays_app, calls_failed_attempts, delays_failed_attempts.
  cbn [calls delays]. rewrite app_nil_r. split; [lia|reflexivity].
Qed.

Lemma retryWithBackoff_returns_first_success_aux :
  forall (retries delay : Z) (w : W) (k : nat) (v : V),
    (Z.of_nat k < retries)%Z ->
    (forall j, j < k -> exists e, result_of_call fn j w = inl e) ->
    result_of_call fn k w = inr v ->
    exists tr,
      retryWithBackoff fn retries delay w
        = Some (after fn (S k) w, tr, Resolved v)
      /\ calls tr = S k.
Proof.
  intros retries delay w k v Hk Hfail Hok.
  exists (failed_attempts k 1 delay ++ [Called]).
  split; [|apply trace_of_attempts].
  unfold retryWithBackoff.
  rewrite (loop_first_success W V fn k (Z.to_nat retries) 1 retries delay w []
             v Hfail Hok); [reflexivity | lia | lia].
Qed.

(** X7. For any number of retries and any initial delay that is a whole
    number of milliseconds, at least 1, whose doublings stay within the
    range of [setTimeout]: if call number [k + 1] is the first to succeed
    and [k + 1 <= retries], its value is returned after exactly [k + 1]
    calls ([fn] is not called again after the success), and the timers
    awaited after the [k] failures were set to [delay], [2 * delay], ...,
    [2 ^ (k - 1) * delay]. *)
Theorem retryWithBackoff_returns_first_success :
  forall (retries delay : Z) (w : W) (k : nat) (v : V),
    within_timer_range delay k ->
    (Z.of_nat k < retries)%Z ->
    (forall j, j < k -> exists e, result_of_call fn j w = inl e) ->
    result_of_call fn k w = inr v ->
    exists tr,
      retryWithBackoff fn retries delay w
        = Some (after fn (S k) w, tr, Resolved v)
      /\ calls tr = S k
      /\ delays tr = backoff k delay.
Proof.
  intros retries delay w k v _ Hk Hfail Hok.
  exists (failed_attempts k 1 delay ++ [Called]).
  split; [|apply trace_of_attempts].
  unfold retryWithBackoff.
  rewrite (loop_first_success W V fn k (Z.to_nat retries) 1 retries delay w []
             v Hfail Hok); [reflexivity | lia | lia].
Qed.

(** X8. For any positive number of retries and any initial delay that is
    a whole number of milliseconds, at least 1, whose doublings stay
    within the range of [setTimeout]: if all [retries] calls fail, the
    error of the last call is the one thrown, [fn] has been called exactly
    [retries] times, and the timers awaited in between were set to
    [delay * (2 ^ (retries - 1) - 1)] milliseconds in total; no timer is
    awaited after the last failure. *)
Theorem retryWithBackoff_rethrows_last_error :
  forall (delay : Z) (w : W) (k : nat) (e : exn),
    within_timer_range delay k ->
    (forall j, j < k -> exists e', result_of_call fn j w = inl e') ->
    result_of_call fn k w = inl e ->
    exists tr,
      retryWithBackoff fn (Z.of_nat (S k)) delay w
        = Some (after fn (S k) w, tr, Rejected e)
      /\ calls tr = S k
      /\ delays tr = backoff k delay
      /\ fold_right Z.add 0%Z (delays tr)
         = (delay * (2 ^ Z.of_nat k - 1))%Z.
Proof.
  intros delay w k e _ Hfail Hlast.
  exists (failed_attempts k 1 delay ++ [Called]).
  destruct (trace_of_attempts k delay) as (Hc & Hd).
  split; [|split; [exact Hc|split; [exact Hd|rewrite Hd; apply backoff_sum]]].
  unfold retryWithBackoff.
  rewrite (loop_all_fail W V fn k (Z.to_nat (Z.of_nat (S k))) 1
             (Z.of_nat (S k)) delay w [] e Hfail Hlast); [reflexivity | lia | lia].
Qed.

(** X9. For every integer number of retries the call returns, and [fn] is
    called at most [retries] times.  With [retries <= 0] the loop body
    never runs: [fn] is not called at all and the promise resolves to
    [undefined] instead of rejecting. *)
Theorem retryWithBackoff_always_returns :
  forall (retries delay : Z) (w : W),
    (exists w' tr o,
        retryWithBackoff fn retries delay w = Some (w', tr, o)
        /\ (Z.of_nat (calls tr) <= Z.max retries 0)%Z)
    /\ ((retries <= 0)%Z ->
        retryWithBackoff fn retries delay w = Some (w, [], ResolvedUndefined)).
Proof.
  intros retries delay w.
  assert (Hzero : (retries <= 0)%Z ->
            retryWithBackoff fn retries delay w = Some (w, [], ResolvedUndefined)).
  { intros Hle. unfold retryWithBackoff.
    destruct (Z.to_nat retries); cbn [loop];
      replace (1 <=? retries)%Z with false
        by (symmetry; apply Z.leb_gt; lia); reflexivity. }
  split; [|exact Hzero].
  destruct (Z_le_gt_dec retries 0) as [Hle|Hgt].
  - exists w, [], ResolvedUndefined. split; [apply Hzero; exact Hle|cbn; lia].
  - destruct (first_success_or_all_fail W V fn (Z.to_nat retries) w)
      as [(k & v & Hk & Hf & Hv)|Hall].
    + destruct (retryWithBackoff_returns_first_success_aux retries delay w k v)
        as (tr & Hr & Hc); [lia|exact Hf|exact Hv|].
      exists (after fn (S k) w), tr, (Resolved v).
      split; [exact Hr|]. rewrite Hc. lia.
    + destruct (Z.to_nat retries) as [|k] eqn:Hn; [lia|].
      destruct (Hall k) as [e He]; [lia|].
      exists (after fn (S k) w), (failed_attempts k 1 delay ++ [Called]),
             (Rejected e).
      destruct (trace_of_attempts k delay) as (Hc & _).
      split; [|rewrite Hc; lia].
      unfold retryWithBackoff. rewrite Hn.
      rewrite (loop_all_fail W V fn k (S k) 1 retries delay w [] e);
        [reflexivity | intros j Hj; apply Hall; lia | exact He | lia | lia].
Qed.

End RetryGeneral.

Section VerifyFacts.
Import Retry Verify.
Variable node : Wallet.State -> list value -> exn + value.

(** Each call of the retried function issues one [gettransaction]. *)
Lemma gettransaction_issued (txId : value) (k : nat) (w : Wallet.State) :
  Wallet.issued (after (gettransaction node txId) k w)
  = Wallet.issued w ++ repeat [VStr (lit "gettransaction"); txId] k.
Proof.
  induction k as [|k IH]; cbn [after repeat].
  - rewrite app_nil_r. reflexivity.
  - unfold gettransaction at 1, Wallet.client_command. cbn [fst Wallet.issued].
    rewrite IH. rewrite <- app_assoc. f_equal.
    change (repeat [VStr (lit "gettransaction"); txId] k
            ++ [[VStr (lit "gettransaction"); txId]])
      with (repeat [VStr (lit "gettransaction"); txId] k
            ++ repeat [VStr (lit "gettransaction"); txId] 1).
    rewrite <- repeat_app. rewrite Nat.add_1_r. reflexivity.
Qed.

(** X10. For a transaction id that converts to a string
    [verifyTransaction] never throws: it answers [true] exactly when one
    of at most five [gettransaction] attempts succeeds, and [false] after
    the fifth has failed, 500 + 1000 + 2000 + 4000 ms of waiting later.
    The node is asked once per attempt and never after a success. *)
Theorem verifyTransaction_reports_instead_of_throwing :
  forall (txId : value) (w : Wallet.State),
    ToString_throws txId = false ->
    exists w' tr out b,
      verifyTransaction node txId w = Some (w', tr, out, inr b)
      /\ (b = true <->
          exists k v, k < 5
            /\ result_of_call (gettransaction node txId) k w = inr v)
      /\ calls tr <= 5
      /\ Wallet.issued w'
         = Wallet.issued w
           ++ repeat [VStr (lit "gettransaction"); txId] (calls tr)
      /\ (b = false ->
          calls tr = 5 /\ delays tr = [500; 1000; 2000; 4000]%Z).
Proof.
  intros txId w Hprint.
  set (fn := gettransaction node txId).
  destruct (first_success_or_all_fail _ _ fn 5 w)
    as [(k & v & Hk & Hf & Hv)|Hall].
  - exists (after fn (S k) w), (failed_attempts k 1 500 ++ [Called]),
           [Log_verified txId v], true.
    destruct (trace_of_attempts k 500) as (Hc & Hd).
    split.
    { unfold verifyTransaction, retryWithBackoff_default, retryWithBackoff.
      fold fn.
      rewrite (loop_first_success _ _ fn k _ 1 MAX_RETRIES 500 w [] v Hf Hv);
        [|unfold MAX_RETRIES; lia|unfold MAX_RETRIES; cbn; lia].
      cbn. rewrite Hprint. reflexivity. }
    split; [split; [intros _; exists k, v; auto|reflexivity]|].
    split; [rewrite Hc; lia|].
    split; [rewrite Hc; apply gettransaction_issued|discriminate].
  - destruct (Hall 4) as [e He]; [lia|].
    exists (after fn 5 w), (failed_attempts 4 1 500 ++ [Called]),
           [Error_failed_to_verify txId e], false.
    destruct (trace_of_attempts 4 500) as (Hc & Hd).
    split.
    { unfold verifyTransaction, retryWithBackoff_default, retryWithBackoff.
      fold fn.
      rewrite (loop_all_fail _ _ fn 4 _ 1 MAX_RETRIES 500 w [] e);
        [|intros j Hj; apply Hall; lia|exact He|reflexivity
         |unfold MAX_RETRIES; cbn; lia].
      unfold on_failure. cbn. rewrite Hprint. reflexivity. }
    split.
    { split; [discriminate|].
      intros (k & v & Hk & Hv). destruct (Hall k Hk) as [e' He']. congruence. }
    split; [rewrite Hc; lia|].
    split; [rewrite Hc; apply gettransaction_issued|].
    intros _. split; [exact Hc|]. rewrite Hd. reflexivity.
Qed.

End VerifyFacts.

(* ===================================================================== *)
(** * wallet.js: validation and the operations on the node                 *)
(* ===================================================================== *)

Lemma unusable_name_rejected (v : value) :
  unusable_name v ->
  exists msg, Wallet.validateWalletName v = inl (Error msg).
Proof.
  destruct v; cbn; eauto.
  intros H. replace (trim_is_empty s) with true; [eauto|].
  symmetry. apply forallb_forall. exact H.
Qed.

Lemma usable_name_accepted (v : value) :
  usable_name v ->
  Wallet.validateWalletName v = inr tt /\ ToString_throws v = false.
Proof.
  intros (s & c & -> & Hin & Hc). split; [|reflexivity]. cbn.
  destruct (trim_is_empty s) eqn:Ht; [|reflexivity].
  unfold trim_is_empty in Ht. rewrite forallb_forall in Ht.
  rewrite (Ht c Hin) in Hc. discriminate.
Qed.

Lemma validateAmount_accepts_exactly_positive_aux (amount : number) :
  positive_number amount -> Wallet.validateAmount amount = inr tt.
Proof.
  unfold Wallet.validateAmount, positive_number.
  destruct amount as [[]|[]| |[] m e]; cbn; intros H;
    try discriminate; reflexivity.
Qed.

(** X11. [validateAmount] accepts exactly the numbers greater than zero
    (positive infinity included); NaN, both zeros and every negative
    number are rejected. *)
Theorem validateAmount_accepts_exactly_positive :
  forall (amount : number),
    Wallet.validateAmount amount = inr tt <-> positive_number amount.
Proof.
  intros amount. unfold Wallet.validateAmount, positive_number.
  destruct amount as [[]|[]| |[] m e]; cbn; split; intros H;
    try discriminate; reflexivity.
Qed.

Section SendFacts.
Variable node : Wallet.State -> list value -> exn + value.

(** X12. With a usable wallet name, a positive amount and a recipient
    that converts to a string, [sendBitcoin] switches the client to the
    named wallet and issues exactly one [sendtoaddress] with the recipient
    and the amount.  It returns the node's transaction id, and a
    rejection by the node is rethrown unchanged. *)
Theorem sendBitcoin_issues_one_command :
  forall (walletName recipientAddress : value) (amount : number)
         (answer : exn + value) (s : Wallet.State),
    usable_name walletName ->
    positive_number amount ->
    ToString_throws recipientAddress = false ->
    (forall st, node st (cmd_sendtoaddress recipientAddress amount) = answer) ->
    Wallet.client_wallet
      (fst (Wallet.sendBitcoin node walletName recipientAddress amount s))
    = walletName
    /\ Wallet.issued
         (fst (Wallet.sendBitcoin node walletName recipientAddress amount s))
       = Wallet.issued s ++ [cmd_sendtoaddress recipientAddress amount]
    /\ snd (Wallet.sendBitcoin node walletName recipientAddress amount s)
       = match answer with
         | inr txId => if ToString_throws txId then inl TypeError else inr txId
         | inl e => inl e
         end.
Proof.
  intros walletName recipientAddress amount answer s Hname Hpos Hrec Hnode.
  destruct (usable_name_accepted walletName Hname) as (Hv & Hp).
  apply validateAmount_accepts_exactly_positive_aux in Hpos.
  unfold Wallet.sendBitcoin, Eff.try_catch, Eff.bind, Eff.lift, Wallet.template,
    Wallet.console_log, Wallet.set_client_wallet, Wallet.client_command,
    Eff.modify, Eff.ret, Eff.throw.
  rewrite Hv, Hpos. cbn [existsb]. rewrite Hp, Hrec. cbn.
  unfold cmd_sendtoaddress in Hnode. rewrite Hnode.
  destruct answer as [e|txId]; cbn.
  - rewrite ?Hp. cbn. repeat split.
  - destruct (ToString_throws txId); cbn; rewrite ?Hp; cbn; repeat split.
Qed.

End SendFacts.

Section NodeOperations.
Import WalletRpc.
Variable node : WalletRpc.State -> list value -> thrown + value.

Ltac rpc_unfold :=
  unfold loadWallet, fundWallet, checkBalance, generateNewAddress;
  unfold ensureWalletExists, WalletRpc.try_catch, validate_name, length_of;
  unfold WalletRpc.bind, WalletRpc.template, WalletRpc.console_log,
    console_error, WalletRpc.set_client_wallet, WalletRpc.client_command,
    WalletRpc.ret, WalletRpc.throw.

(** X13. [loadWallet] (which does not validate the name) issues exactly
    one [loadwallet], without switching the client's wallet.  It returns
    normally when the node accepts the command and when the node rejects
    it with code -35 (already loaded); any other rejection is rethrown
    unchanged. *)
Theorem loadWallet_swallows_already_loaded :
  forall (walletName : value) (answer : thrown + value) (s : WalletRpc.State),
    ToString_throws walletName = false ->
    (forall st, node st (cmd_loadwallet walletName) = answer) ->
    client_wallet (fst (loadWallet node walletName s)) = client_wallet s
    /\ issued (fst (loadWallet node walletName s))
       = issued s ++ [(client_wallet s, cmd_loadwallet walletName)]
    /\ snd (loadWallet node walletName s)
       = match answer with
         | inr _ => inr tt
         | inl error => if code_is error (-35) then inr tt else inl error
         end.
Proof.
  intros walletName answer s Hp Hnode. unfold cmd_loadwallet in *.
  rpc_unfold. cbn [existsb]. rewrite Hp. cbn. rewrite Hnode.
  destruct answer as [error|result]; cbn.
  - destruct (code_is error (-35)); cbn; repeat split.
  - repeat split.
Qed.

(** X14. [ensureWalletExists] first issues [loadwallet].  If the node
    accepts it, or rejects it with code -35, nothing else is issued and
    the call returns.  If the node rejects it with code -18 (no such
    wallet), [createwallet] is issued as well, and the call returns when
    it is accepted; a rejection of [createwallet] is not caught.  Any
    other rejection of [loadwallet] is rethrown unchanged.  The client's
    wallet is never switched. *)
Theorem ensureWalletExists_creates_only_missing_wallet :
  forall (walletName : value) (load create : thrown + value)
         (s : WalletRpc.State),
    ToString_throws walletName = false ->
    (forall st, node st (cmd_loadwallet walletName) = load) ->
    (forall st, node st (cmd_createwallet walletName) = create) ->
    client_wallet (fst (ensureWalletExists node walletName s)) = client_wallet s
    /\ match load with
       | inr _ =>
           snd (ensureWalletExists node walletName s) = inr tt
           /\ issued (fst (ensureWalletExists node walletName s))
              = issued s ++ [(client_wallet s, cmd_loadwallet walletName)]
       | inl error =>
           if code_is error (-18) then
             issued (fst (ensureWalletExists node walletName s))
             = issued s ++ [(client_wallet s, cmd_loadwallet walletName);
                            (client_wallet s, cmd_createwallet walletName)]
             /\ snd (ensureWalletExists node walletName s)
                = match create with
                  | inr _ => inr tt
                  | inl error' => inl error'
                  end
           else
             issued (fst (ensureWalletExists node walletName s))
             = issued s ++ [(client_wallet s, cmd_loadwallet walletName)]
             /\ snd (ensureWalletExists node walletName s)
                = if code_is error (-35) then inr tt else inl error
       end.
Proof.
  intros walletName load create s Hp Hload Hcreate.
  unfold cmd_loadwallet, cmd_createwallet in *.
  rpc_unfold. cbn [existsb]. rewrite Hp. cbn. rewrite Hload.
  destruct load as [error|result]; cbn.
  - destruct (code_is error (-18)) eqn:H18; cbn.
    + rewrite Hcreate. destruct create; cbn; rewrite <- ?app_assoc; repeat split.
    + destruct (code_is error (-35)); cbn; repeat split.
  - repeat split.
Qed.

(** X15. [fundWallet], [checkBalance] and [generateNewAddress] validate
    the wallet name before anything else: for a name that is not a string
    or is blank they throw without issuing a command and without
    switching the client's wallet. *)
Theorem operations_validate_name_first :
  forall (walletName numberOfBlocks : value) (s : WalletRpc.State),
    unusable_name walletName ->
    (exists e,
        snd (fundWallet node walletName numberOfBlocks s) = inl e
        /\ issued (fst (fundWallet node walletName numberOfBlocks s)) = issued s
        /\ client_wallet (fst (fundWallet node walletName numberOfBlocks s))
           = client_wallet s)
    /\ (exists e,
          snd (checkBalance node walletName s) = inl e
          /\ issued (fst (checkBalance node walletName s)) = issued s
          /\ client_wallet (fst (checkBalance node walletName s))
             = client_wallet s)
    /\ (exists e,
          snd (generateNewAddress node walletName s) = inl e
          /\ issued (fst (generateNewAddress node walletName s)) = issued s
          /\ client_wallet (fst (generateNewAddress node walletName s))
             = client_wallet s).
Proof.
  intros walletName numberOfBlocks s Hbad.
  destruct (unusable_name_rejected walletName Hbad) as [msg Hv].
  repeat split; rpc_unfold; rewrite Hv; cbn;
    destruct (ToString_throws walletName); cbn; eexists; repeat split.
Qed.

(** When the wallet loads or is already loaded, [ensureWalletExists]
    returns after its single [loadwallet]. *)
Lemma ensureWalletExists_loaded (walletName : value) (load : thrown + value)
    (s : WalletRpc.State) :
  ToString_throws walletName = false ->
  (forall st, node st (cmd_loadwallet walletName) = load) ->
  (match load with
   | inr _ => True
   | inl error => code_is error (-35) = true
   end) ->
  exists out,
    ensureWalletExists node walletName s
    = ({| client_wallet := client_wallet s;
          issued := issued s ++ [(client_wallet s, cmd_loadwallet walletName)];
          console := console s ++ out |}, inr tt).
Proof.
  intros Hp Hload Hok. unfold cmd_loadwallet in *.
  rpc_unfold. cbn [existsb]. rewrite Hp. cbn. rewrite Hload.
  destruct load as [error|result]; cbn.
  - assert (H18 : code_is error (-18) = false).
    { destruct error as [e|[c|] m]; cbn in *; try discriminate.
      apply Z.eqb_eq in Hok. subst c. reflexivity. }
    rewrite H18, Hok. cbn. eexists. reflexivity.
  - eexists. reflexivity.
Qed.

(** X16. With a usable name, when the node loads the wallet (or reports
    it already loaded), hands out an address and mines the blocks,
    [fundWallet] returns having issued, in this order: [loadwallet] while
    the client is still set to its previous wallet, then, with the client
    switched to the named wallet, [getnewaddress] and [generatetoaddress]
    for the requested number of blocks to that address.  When the number
    of blocks is [undefined], 101 blocks are requested. *)
Theorem fundWallet_mines_to_named_wallet :
  forall (walletName numberOfBlocks miningAddress : value)
         (load : thrown + value) (blockHashes : list value)
         (s : WalletRpc.State),
    usable_name walletName ->
    numberOfBlocks <> VUndefined ->
    ToString_throws numberOfBlocks = false ->
    ToString_throws miningAddress = false ->
    (forall st, node st (cmd_loadwallet walletName) = load) ->
    (match load with
     | inr _ => True
     | inl error => code_is error (-35) = true
     end) ->
    (forall st, node st cmd_getnewaddress = inr miningAddress) ->
    (forall st, node st (cmd_generatetoaddress numberOfBlocks miningAddress)
                = inr (VArr blockHashes)) ->
    snd (fundWallet node walletName numberOfBlocks s) = inr tt
    /\ client_wallet (fst (fundWallet node walletName numberOfBlocks s))
       = walletName
    /\ issued (fst (fundWallet node walletName numberOfBlocks s))
       = issued s
         ++ [(client_wallet s, cmd_loadwallet walletName);
             (walletName, cmd_getnewaddress);
             (walletName, cmd_generatetoaddress numberOfBlocks miningAddress)]
    /\ fundWallet node walletName VUndefined
       = fundWallet node walletName (VNum (num_of_Z 101)).
Proof.
  intros walletName numberOfBlocks miningAddress load blockHashes s
         Hname Hdef Hblocks Haddr Hload Hok Hnew Hgen.
  destruct (usable_name_accepted walletName Hname) as (Hv & Hp).
  assert (Heff : match numberOfBlocks with
                 | VUndefined => VNum (num_of_Z 101)
                 | _ => numberOfBlocks
                 end = numberOfBlocks)
    by (destruct numberOfBlocks; congruence).
  assert (Hrun : exists out,
    fundWallet node walletName numberOfBlocks s
    = ({| client_wallet := walletName;
          issued := issued s
            ++ [(client_wallet s, cmd_loadwallet walletName);
                (walletName, cmd_getnewaddress);
                (walletName, cmd_generatetoaddress numberOfBlocks miningAddress)];
          console := out |}, inr tt)).
  { unfold fundWallet. cbv zeta.
    rewrite !Heff.
    unfold WalletRpc.try_catch, validate_name, length_of.
    unfold WalletRpc.bind at 1. rewrite Hv.
    unfold WalletRpc.ret at 1.
    unfold WalletRpc.bind at 1, WalletRpc.template at 1.
    cbn [existsb]. rewrite Hp, Hblocks. cbn [orb]. unfold WalletRpc.ret at 1.
    unfold WalletRpc.bind at 1, WalletRpc.console_log at 1.
    unfold WalletRpc.bind at 1.
    match goal with
    | |- context [ensureWalletExists node walletName ?st] =>
        destruct (ensureWalletExists_loaded walletName load st Hp Hload Hok)
          as [out Hens]; rewrite Hens
    end.
    unfold cmd_getnewaddress, cmd_generatetoaddress in *.
    rpc_unfold. cbn. rewrite Hnew. cbn. rewrite Haddr. cbn. rewrite Hgen. cbn.
    rewrite <- !app_assoc. cbn [app]. eexists. reflexivity. }
  destruct Hrun as [out Hrun]. rewrite Hrun. cbn. repeat split.
Qed.

(** X17. With a usable name, [checkBalance] and [generateNewAddress]
    switch the client to the named wallet and then issue exactly one
    command ([getbalance], respectively [getnewaddress] for a bech32
    address) on that wallet.  They return the node's answer, and a
    rejection by the node is rethrown unchanged. *)
Theorem queries_run_on_named_wallet :
  forall (walletName : value) (answer : thrown + value) (s : WalletRpc.State),
    usable_name walletName ->
    ((forall st, node st cmd_getbalance = answer) ->
     client_wallet (fst (checkBalance node walletName s)) = walletName
     /\ issued (fst (checkBalance node walletName s))
        = issued s ++ [(walletName, cmd_getbalance)]
     /\ snd (checkBalance node walletName s)
        = match answer with
          | inr balance =>
              if ToString_throws balance then inl (Js TypeError)
              else inr balance
          | inl error => inl error
          end)
    /\ ((forall st, node st cmd_getnewaddress_bech32 = answer) ->
        client_wallet (fst (generateNewAddress node walletName s)) = walletName
        /\ issued (fst (generateNewAddress node walletName s))
           = issued s ++ [(walletName, cmd_getnewaddress_bech32)]
        /\ snd (generateNewAddress node walletName s)
           = match answer with
             | inr newAddress =>
                 if ToString_throws newAddress then inl (Js TypeError)
                 else inr newAddress
             | inl error => inl error
             end).
Proof.
  intros walletName answer s Hname.
  destruct (usable_name_accepted walletName Hname) as (Hv & Hp).
  unfold cmd_getbalance, cmd_getnewaddress_bech32.
  split; intros Hnode; rpc_unfold; rewrite Hv; cbn [existsb]; rewrite ?Hp; cbn;
    rewrite Hnode; (destruct answer as [error|v]; cbn);
    rewrite ?Hp; cbn; try (destruct (ToString_throws v); cbn; rewrite ?Hp; cbn);
    repeat split.
Qed.

End NodeOperations.

(* ===================================================================== *)
(** * The further properties on sample inputs                              *)
(* ===================================================================== *)

Lemma balance_changes_only_by_greater_state_witness :
  Samples.d0_5 = zero \/ num_gt Samples.d0_5 zero = true.
Proof.
  apply (proj2 (@balance_changes_only_by_greater_state
                  Samples.sample_runtime Samples.WALLET_NAME
                  Samples.text_state_a Samples.fresh)
           zero Samples.d0_5); reflexivity.
Defined.

Lemma session_counter_is_bounded_witness :
  let chunks := repeat Samples.text_garbage 6 in
  let s := @deliver Samples.sample_runtime Samples.WALLET_NAME chunks
             (fst (@handlePeerConnection Samples.sample_runtime
                     Samples.WALLET_NAME (VNum zero) [] []
                     (Samples.peer 1 false))) in
  malformedMessagesCount s <= 4
  /\ (destroyed (connection s) = true <-> malformedMessagesCount s = 4).
Proof.
  apply (@session_counter_is_bounded Samples.sample_runtime Samples.WALLET_NAME
           (VNum zero) [] [] (Samples.peer 1 false)
           (repeat Samples.text_garbage 6)).
  reflexivity.
Defined.

Lemma state_message_redelivery_is_noop_witness :
  view (Samples.listen Samples.text_state_a
          (Samples.listen Samples.text_state_a Samples.fresh))
  = view (Samples.listen Samples.text_state_a Samples.fresh).
Proof.
  apply (@state_message_redelivery_is_noop Samples.sample_runtime
           Samples.WALLET_NAME Samples.text_state_a Samples.d0_5 zero
           Samples.fresh).
  - exact sample_state_chunk_a.
  - reflexivity.
Defined.

Lemma state_exchange_agrees_on_balance_witness :
  let sA := fst (@handlePeerConnection Samples2.exchange_runtime Samples2.nameA
                   (VNum Samples.d0_5) [Samples.tx "a"] []
                   (Samples.peer 1 false)) in
  let sB := fst (@handlePeerConnection Samples2.exchange_runtime Samples2.nameB
                   (VNum Samples.d0_3) [Samples.tx "b"] []
                   (Samples.peer 2 false)) in
  view (@deliver Samples2.exchange_runtime Samples2.nameA
          [Samples2.text_pushB] sA)
  = (if num_gt Samples.d0_3 Samples.d0_5
     then (VNum Samples.d0_3, [Samples.tx "a"] ++ [Samples.tx "b"])
     else (VNum Samples.d0_5, [Samples.tx "a"]))
  /\ view (@deliver Samples2.exchange_runtime Samples2.nameB
             [Samples2.text_pushA] sB)
     = (if num_gt Samples.d0_5 Samples.d0_3
        then (VNum Samples.d0_5, [Samples.tx "b"] ++ [Samples.tx "a"])
        else (VNum Samples.d0_3, [Samples.tx "b"]))
  /\ num_le (if num_gt Samples.d0_3 Samples.d0_5
             then Samples.d0_3 else Samples.d0_5)
            (if num_gt Samples.d0_5 Samples.d0_3
             then Samples.d0_5 else Samples.d0_3) = true
  /\ num_le (if num_gt Samples.d0_5 Samples.d0_3
             then Samples.d0_5 else Samples.d0_3)
            (if num_gt Samples.d0_3 Samples.d0_5
             then Samples.d0_3 else Samples.d0_5) = true.
Proof.
  apply (@state_exchange_agrees_on_balance Samples2.exchange_runtime
           Samples2.nameA Samples2.nameB Samples.d0_5 Samples.d0_3
           [Samples.tx "a"] [Samples.tx "b"] [] []
           (Samples.peer 1 false) (Samples.peer 2 false)
           Samples2.text_pushA Samples2.text_pushB);
    reflexivity.
Defined.

Lemma retryWithBackoff_returns_first_success_witness :
  exists tr,
    Retry.retryWithBackoff Samples.flaky 3 100 0
      = Some (Retry.after Samples.flaky 3 0, tr, Retry.Resolved 2)
    /\ Retry.calls tr = 3
    /\ Retry.delays tr = backoff 2 100.
Proof.
  apply (retryWithBackoff_returns_first_success nat nat Samples.flaky
           3 100 0 2 2).
  - unfold within_timer_range. cbn. lia.
  - lia.
  - intros [|[|j]] Hj; [eexists; reflexivity | eexists; reflexivity | lia].
  - reflexivity.
Defined.

Lemma retryWithBackoff_rethrows_last_error_witness :
  exists tr,
    Retry.retryWithBackoff Samples2.always_down (Z.of_nat 3) 100 0
      = Some (Retry.after Samples2.always_down 3 0, tr,
              Retry.Rejected (Error "node unreachable"))
    /\ Retry.calls tr = 3
    /\ Retry.delays tr = backoff 2 100
    /\ fold_right Z.add 0%Z (Retry.delays tr) = (100 * (2 ^ Z.of_nat 2 - 1))%Z.
Proof.
  apply (retryWithBackoff_rethrows_last_error nat nat Samples2.always_down
           100 0 2 (Error "node unreachable")).
  - unfold within_timer_range. cbn. lia.
  - intros j Hj. eexists. reflexivity.
  - reflexivity.
Defined.

Lemma retryWithBackoff_always_returns_witness :
  Retry.retryWithBackoff Samples.flaky 0 500 0
  = Some (0, [], Retry.ResolvedUndefined).
Proof.
  apply (proj2 (retryWithBackoff_always_returns nat nat Samples.flaky 0 500 0)).
  lia.
Defined.

Lemma verifyTransaction_reports_instead_of_throwing_witness :
  exists w' tr out b,
    Verify.verifyTransaction Samples.accepting_node (Samples.str "txid-1")
      Samples.idle_client = Some (w', tr, out, inr b)
    /\ (b = true <->
        exists k v, k < 5
          /\ Retry.result_of_call
               (Verify.gettransaction Samples.accepting_node
                  (Samples.str "txid-1")) k Samples.idle_client = inr v)
    /\ Retry.calls tr <= 5
    /\ Wallet.issued w'
       = Wallet.issued Samples.idle_client
         ++ repeat [VStr (lit "gettransaction"); Samples.str "txid-1"]
              (Retry.calls tr)
    /\ (b = false ->
        Retry.calls tr = 5 /\ Retry.delays tr = [500; 1000; 2000; 4000]%Z).
Proof.
  apply (verifyTransaction_reports_instead_of_throwing Samples.accepting_node
           (Samples.str "txid-1") Samples.idle_client).
  reflexivity.
Defined.

Lemma validateAmount_accepts_exactly_positive_witness :
  Wallet.validateAmount Samples.d0_1 = inr tt.
Proof.
  apply (proj2 (validateAmount_accepts_exactly_positive Samples.d0_1)).
  reflexivity.
Defined.

Lemma sample_name_is_usable : usable_name (Samples.str "mywallet").
Proof.
  exists (lit "mywallet"), 109%N. split; [reflexivity|].
  split; [left; reflexivity|reflexivity].
Defined.

Lemma sendBitcoin_issues_one_command_witness :
  let r := Wallet.sendBitcoin Samples.accepting_node (Samples.str "mywallet")
             (Samples.str "bcrt1qexample") Samples.d0_1 Samples.idle_client in
  Wallet.client_wallet (fst r) = Samples.str "mywallet"
  /\ Wallet.issued (fst r)
     = Wallet.issued Samples.idle_client
       ++ [cmd_sendtoaddress (Samples.str "bcrt1qexample") Samples.d0_1]
  /\ snd r
     = match inr (Samples.str "txid-1") with
       | inr txId => if ToString_throws txId then inl TypeError else inr txId
       | inl e => inl e
       end.
Proof.
  apply (sendBitcoin_issues_one_command Samples.accepting_node
           (Samples.str "mywallet") (Samples.str "bcrt1qexample")
           Samples.d0_1 (inr (Samples.str "txid-1")) Samples.idle_client).
  - exact sample_name_is_usable.
  - reflexivity.
  - reflexivity.
  - intros st. reflexivity.
Defined.

Lemma loadWallet_swallows_already_loaded_witness :
  let r := WalletRpc.loadWallet Samples2.loaded_node (Samples.str "mywallet")
             Samples2.idle_rpc in
  WalletRpc.client_wallet (fst r) = WalletRpc.client_wallet Samples2.idle_rpc
  /\ WalletRpc.issued (fst r)
     = WalletRpc.issued Samples2.idle_rpc
       ++ [(WalletRpc.client_wallet Samples2.idle_rpc,
            cmd_loadwallet (Samples.str "mywallet"))]
  /\ snd r = inr tt.
Proof.
  apply (loadWallet_swallows_already_loaded Samples2.loaded_node
           (Samples.str "mywallet")
           (inl (WalletRpc.Rpc (Some (-35)%Z) "Wallet is already loaded"))
           Samples2.idle_rpc).
  - reflexivity.
  - intros st. reflexivity.
Defined.

Lemma ensureWalletExists_creates_only_missing_wallet_witness :
  let r := WalletRpc.ensureWalletExists Samples2.fresh_node
             (Samples.str "mywallet") Samples2.idle_rpc in
  WalletRpc.client_wallet (fst r) = WalletRpc.client_wallet Samples2.idle_rpc
  /\ WalletRpc.issued (fst r)
     = WalletRpc.issued Samples2.idle_rpc
       ++ [(WalletRpc.client_wallet Samples2.idle_rpc,
            cmd_loadwallet (Samples.str "mywallet"));
           (WalletRpc.client_wallet Samples2.idle_rpc,
            cmd_createwallet (Samples.str "mywallet"))]
  /\ snd r = inr tt.
Proof.
  apply (ensureWalletExists_creates_only_missing_wallet Samples2.fresh_node
           (Samples.str "mywallet")
           (inl (WalletRpc.Rpc (Some (-18)%Z) "Wallet file not found"))
           (inr VNull) Samples2.idle_rpc).
  - reflexivity.
  - intros st. reflexivity.
  - intros st. reflexivity.
Defined.

Lemma sample_blank_name_is_unusable : unusable_name (Samples.str "  ").
Proof. cbn. intros c [<-|[<-|[]]]; reflexivity. Defined.

Lemma operations_validate_name_first_witness :
  exists e,
    snd (WalletRpc.checkBalance Samples2.loaded_node (Samples.str "  ")
           Samples2.idle_rpc) = inl e
    /\ WalletRpc.issued
         (fst (WalletRpc.checkBalance Samples2.loaded_node (Samples.str "  ")
                 Samples2.idle_rpc))
       = WalletRpc.issued Samples2.idle_rpc
    /\ WalletRpc.client_wallet
         (fst (WalletRpc.checkBalance Samples2.loaded_node (Samples.str "  ")
                 Samples2.idle_rpc))
       = WalletRpc.client_wallet Samples2.idle_rpc.
Proof.
  apply (proj1 (proj2 (operations_validate_name_first Samples2.loaded_node
                         (Samples.str "  ") VUndefined Samples2.idle_rpc
                         sample_blank_name_is_unusable))).
Defined.

Lemma fundWallet_mines_to_named_wallet_witness :
  let blocks := VNum (WalletRpc.num_of_Z 101) in
  let r := WalletRpc.fundWallet Samples2.loaded_node (Samples.str "mywallet")
             blocks Samples2.idle_rpc in
  snd r = inr tt
  /\ WalletRpc.client_wallet (fst r) = Samples.str "mywallet"
  /\ WalletRpc.issued (fst r)
     = WalletRpc.issued Samples2.idle_rpc
       ++ [(WalletRpc.client_wallet Samples2.idle_rpc,
            cmd_loadwallet (Samples.str "mywallet"));
           (Samples.str "mywallet", cmd_getnewaddress);
           (Samples.str "mywallet",
            cmd_generatetoaddress blocks (Samples.str "bcrt1qmine"))]
  /\ WalletRpc.fundWallet Samples2.loaded_node (Samples.str "mywallet")
       VUndefined
     = WalletRpc.fundWallet Samples2.loaded_node (Samples.str "mywallet")
         (VNum (WalletRpc.num_of_Z 101)).
Proof.
  apply (fundWallet_mines_to_named_wallet Samples2.loaded_node
           (Samples.str "mywallet") (VNum (WalletRpc.num_of_Z 101))
           (Samples.str "bcrt1qmine")
           (inl (WalletRpc.Rpc (Some (-35)%Z) "Wallet is already loaded"))
           [Samples.str "hash1"; Samples.str "hash2"] Samples2.idle_rpc).
  - exact sample_name_is_usable.
  - discriminate.
  - reflexivity.
  - reflexivity.
  - intros st. reflexivity.
  - reflexivity.
  - intros st. reflexivity.
  - intros st. reflexivity.
Defined.

Lemma queries_run_on_named_wallet_witness :
  let r := WalletRpc.checkBalance Samples2.loaded_node (Samples.str "mywallet")
             Samples2.idle_rpc in
  WalletRpc.client_wallet (fst r) = Samples.str "mywallet"
  /\ WalletRpc.issued (fst r)
     = WalletRpc.issued Samples2.idle_rpc
       ++ [(Samples.str "mywallet", cmd_getbalance)]
  /\ snd r
     = match inr (VNum Samples.d0_5) with
       | inr balance =>
           if ToString_throws balance then inl (WalletRpc.Js TypeError)
           else inr balance
       | inl error => inl error
       end.
Proof.
  apply (proj1 (queries_run_on_named_wallet Samples2.loaded_node
                  (Samples.str "mywallet") (inr (VNum Samples.d0_5))
                  Samples2.idle_rpc sample_name_is_usable)).
  intros st. reflexivity.
Defined.
